(** * Multiversal Trade Network server: token lifecycle and settlement engine

    A shallow embedding of [Server/db.py] (the six tables) and of the request
    handlers of [Server/server.py] that mutate them, followed by the
    properties of the handlers.

    Conventions of the embedding.
    - A table with an autoincrement [id] primary key is a [list] of rows in
      retrieval order; a row's identity is its position, and an insert
      appends.  A table whose primary key is a string ([active_users],
      [active_tokens]) is a [gmap string] from the key to the other columns.
    - [time.time()] is read once per request and passed in as [now]; a
      timestamp is an integer number of seconds.
    - Python's [None] and [''] are both falsy; an identity column holding
      either is the empty string here.
    - An [async with SessionLocal()] block that raises leaves the database
      as its last [session.commit()] left it: as it was, when the block
      commits once at its end.
    - Python's integers are unbounded and an [Integer] column of SQLite has
      64 bits: the flush of a value that does not fit raises [OverflowError].
      [handle_trade], which stores the numbers of the request as they come,
      is modelled with it.  [handle_buy] is modelled without it: what it
      returns and stores is the code's whenever the quantities and sums it
      writes fit 64 bits. *)

From Stdlib Require Import Ascii.
From stdpp Require Import numbers strings list gmap fin_maps.

Local Open Scope Z_scope.

(** ** Schema ([Server/db.py]) *)

Module ForSaleItem.
Record t := mk {
  def_name : string;
  quantity : Z;
  price : Z;
  player_name : string;
  seller_steam_id : string;
  quality : string;
  item_id : option string;
  listed_at : Z }.

(** [item.quantity -= n] on a loaded object. *)
Definition sub_quantity (item : t) (n : Z) : t :=
  mk (def_name item) (quantity item - n) (price item) (player_name item)
     (seller_steam_id item) (quality item) (item_id item) (listed_at item).
End ForSaleItem.

(** One element of the JSON list stored in [SaleHistory.purchased_items]. *)
Module ItemDetails.
Record t := mk {
  DefName : string;
  Quantity : Z;
  Price : Z;
  PlayerName : string;
  Quality : string;
  seller_steam_id : option string;
  seller_name : option string }.
End ItemDetails.

Module SaleHistory.
Record t := mk {
  timestamp : Z;
  buyer_steam_id : option string;
  buyer_name : option string;
  purchased_items : list ItemDetails.t;
  total_cost : Z;
  seller_steam_id : option string;
  seller_name : option string }.
End SaleHistory.

Module PendingSale.
Record t := mk {
  seller_steam_id : string;
  buyer_name : string;
  item : string;
  quantity : Z;
  price : Z;
  total_silver : Z;
  timestamp : Z }.
End PendingSale.

(** Row of [active_users]; the key [steam_id] is the key of the map. *)
Module ActiveUser.
Record t := mk {
  player_name : string;
  last_seen : Z }.
End ActiveUser.

(** Row of [active_tokens]; the key [token] is the key of the map. *)
Module ActiveToken.
Record t := mk {
  steam_id : string;
  player_name : string;
  issued_at : Z;
  expires_at : Z;
  revoked : Z }.
End ActiveToken.

Module UserSession.
Record t := mk {
  steam_id : string;
  player_name : string;
  session_start : Z;
  session_end : option Z;
  last_activity : Z;
  is_active : bool;
  user_agent : option string }.
End UserSession.

Record Database := mkDatabase {
  for_sale_items : list ForSaleItem.t;
  sales_history : list SaleHistory.t;
  pending_sales : list PendingSale.t;
  active_users : gmap string ActiveUser.t;
  active_tokens : gmap string ActiveToken.t;
  user_sessions : list UserSession.t }.

(** ** Request models and outcomes ([Server/server.py]) *)

Module BuyItemRequest.
Record t := mk {
  def_name : string;
  quantity : Z;
  seller_name : string }.
End BuyItemRequest.

Module BuyRequest.
Record t := mk {
  items : list BuyItemRequest.t;
  client_silver : Z }.
End BuyRequest.

(** The decoded token (the [user] dict every handler receives). *)
Module Payload.
Record t := mk {
  steam_id : string;
  player_name : string;
  exp : Z;
  iat : Z;
  jti : string }.
End Payload.

(** What a handler can raise.  The first four are the
    [HTTPException(status_code=400, ...)] of the handlers, with the values
    their [detail] message interpolates; [IndexError] and [OverflowError] are
    Python's own exceptions and [IntegrityError] the store's (a primary key
    inserted twice); no handler catches any of the three. *)
Inductive Exception :=
| ItemUnavailable (def_name seller_name : string)
    (* "Item {def_name} from {seller_name} is no longer available" *)
| InsufficientStock (def_name : string) (requested available : Z)
    (* "Not enough {def_name} available. Requested: .., Available: .." *)
| InsufficientFunds (required have : Z)
    (* "Not enough silver. Required: .., You have: .." *)
| InvalidIndex
    (* "Invalid item index" *)
| IndexError
| IntegrityError
| OverflowError
    (* "Python int too large to convert to SQLite INTEGER" *).

Inductive Outcome (A : Type) :=
| Returned (a : A)
| Raised (e : Exception).
Arguments Returned {A} a.
Arguments Raised {A} e.

(** Truth value of a Python string. *)
Definition truthy (s : string) : bool := bool_decide (s ≠ "").

(** ** [handle_buy] *)

(** The condition of the comprehension
    [[item for item in for_sale_items if item.def_name == def_name and
      item.player_name == seller_name]]. *)
Definition is_match (r : BuyItemRequest.t) (item : ForSaleItem.t) : Prop :=
  ForSaleItem.def_name item = BuyItemRequest.def_name r
  ∧ ForSaleItem.player_name item = BuyItemRequest.seller_name r.

#[global] Instance is_match_dec r item : Decision (is_match r item).
Proof. unfold is_match. apply _. Defined.

Definition matching_items (for_sale_items : list ForSaleItem.t)
    (r : BuyItemRequest.t) : list ForSaleItem.t :=
  filter (is_match r) for_sale_items.

(** First loop: "Validate all purchases first".  Nothing is written. *)
Fixpoint validate_purchases (for_sale_items : list ForSaleItem.t)
    (reqs : list BuyItemRequest.t) (total_cost : Z) : Outcome Z :=
  match reqs with
  | [] => Returned total_cost
  | r :: reqs' =>
      match matching_items for_sale_items r with
      | [] => Raised (ItemUnavailable (BuyItemRequest.def_name r)
                                      (BuyItemRequest.seller_name r))
      | item :: _ =>
          let available_quantity := ForSaleItem.quantity item in
          if decide (BuyItemRequest.quantity r > available_quantity) then
            Raised (InsufficientStock (ForSaleItem.def_name item)
                      (BuyItemRequest.quantity r) available_quantity)
          else
            let item_cost := ForSaleItem.price item * BuyItemRequest.quantity r in
            validate_purchases for_sale_items reqs' (total_cost + item_cost)
      end
  end.

(** A loaded ORM object: its current attribute values and whether
    [session.delete] was called on it.  The Python list [for_sale_items]
    keeps holding the object after [session.delete], so a later line of the
    batch finds it again; the flush at commit deletes the row of a marked
    object, whatever was assigned to it afterwards, and writes the attributes
    of the others. *)
Record Loaded := mkLoaded {
  obj : ForSaleItem.t;
  deleted : bool }.

Definition load (rows : list ForSaleItem.t) : list Loaded :=
  (λ row, mkLoaded row false) <$> rows.

Definition flush (objs : list Loaded) : list ForSaleItem.t :=
  obj <$> filter (λ o, deleted o = false) objs.

(** State of the second loop: the loaded objects, the rows passed to
    [session.add], and the two accumulators. *)
Module BuyState.
Record t := mk {
  loaded : list Loaded;
  added : list PendingSale.t;
  purchased_items : list ItemDetails.t;
  total_cost : Z }.
End BuyState.

(** [matching_items[0]] of the second loop: the first object of
    [for_sale_items] the condition holds for, together with its position,
    which is what the assignments below go to. *)
Definition first_match (objs : list Loaded) (r : BuyItemRequest.t)
    : option (nat * Loaded) :=
  list_find (λ o, is_match r (obj o)) objs.

(** One iteration of "Process purchases". *)
Definition process_purchase (buyer_name : string) (now : Z)
    (st : BuyState.t) (r : BuyItemRequest.t) : BuyState.t :=
  match first_match (BuyState.loaded st) r with
  | None => st
  | Some (i, o) =>
      let item := obj o in
      let quantity := BuyItemRequest.quantity r in
      let available_quantity := ForSaleItem.quantity item in
      let item_cost := ForSaleItem.price item * quantity in
      let purchased_item_details :=
        ItemDetails.mk (ForSaleItem.def_name item) quantity
          (ForSaleItem.price item) (ForSaleItem.player_name item)
          (ForSaleItem.quality item)
          (Some (ForSaleItem.seller_steam_id item))
          (Some (ForSaleItem.player_name item)) in
      let loaded' :=
        if decide (quantity = available_quantity) then
          <[i := mkLoaded item true]> (BuyState.loaded st)
        else
          <[i := mkLoaded (ForSaleItem.sub_quantity item quantity) (deleted o)]>
            (BuyState.loaded st) in
      let added' :=
        if truthy (ForSaleItem.seller_steam_id item) then
          BuyState.added st ++
            [PendingSale.mk (ForSaleItem.seller_steam_id item) buyer_name
               (ForSaleItem.def_name item) quantity (ForSaleItem.price item)
               item_cost now]
        else BuyState.added st in
      BuyState.mk loaded' added'
        (BuyState.purchased_items st ++ [purchased_item_details])
        (BuyState.total_cost st + item_cost)
  end.

Definition process_purchases (buyer_name : string) (now : Z)
    (reqs : list BuyItemRequest.t) (st : BuyState.t) : BuyState.t :=
  foldl (process_purchase buyer_name now) st reqs.

Module BuyResponse.
Record t := mk {
  purchased_items : list ItemDetails.t;
  total_cost : Z }.
End BuyResponse.

Definition handle_buy (db : Database) (data : BuyRequest.t)
    (user : Payload.t) (now : Z) : Outcome BuyResponse.t * Database :=
  let for_sale_items := for_sale_items db in
  match validate_purchases for_sale_items (BuyRequest.items data) 0 with
  | Raised e => (Raised e, db)
  | Returned total_cost =>
      if decide (BuyRequest.client_silver data < total_cost) then
        (Raised (InsufficientFunds total_cost (BuyRequest.client_silver data)), db)
      else
        let st :=
          process_purchases (Payload.player_name user) now (BuyRequest.items data)
            (BuyState.mk (load for_sale_items) [] [] 0) in
        let sale_record :=
          SaleHistory.mk now (Some (Payload.steam_id user))
            (Some (Payload.player_name user)) (BuyState.purchased_items st)
            (BuyState.total_cost st) None None in
        (Returned (BuyResponse.mk (BuyState.purchased_items st)
                     (BuyState.total_cost st)),
         mkDatabase (flush (BuyState.loaded st))
           (sales_history db ++ [sale_record])
           (pending_sales db ++ BuyState.added st)
           (active_users db) (active_tokens db) (user_sessions db))
  end.

(** ** [handle_trade] *)

Module TradeRecordModel.
Record t := mk {
  DefName : string;
  Quantity : Z;
  Price : Z;
  Quality : string }.
End TradeRecordModel.

(** What an [Integer] column takes. *)
Definition int64 (z : Z) : Prop := - 2 ^ 63 ≤ z ≤ 2 ^ 63 - 1.

(** The loop of [handle_trade] over [data.records], from the rows of the
    table and the [newly_listed_items] so far.  Each record is added and
    committed on its own: when the commit of a record raises, the rows of the
    records before it are in the table already, and stay. *)
Fixpoint list_records (user : Payload.t) (now : Z) (rows : list ForSaleItem.t)
    (newly_listed_items : list ItemDetails.t)
    (records : list TradeRecordModel.t)
    : Outcome (list ItemDetails.t) * list ForSaleItem.t :=
  match records with
  | [] => (Returned newly_listed_items, rows)
  | record :: records' =>
      let db_item :=
        ForSaleItem.mk (TradeRecordModel.DefName record)
          (TradeRecordModel.Quantity record) (TradeRecordModel.Price record)
          (Payload.player_name user) (Payload.steam_id user)
          (TradeRecordModel.Quality record) None now in
      if decide (int64 (ForSaleItem.quantity db_item)
                 ∧ int64 (ForSaleItem.price db_item)) then
        list_records user now (rows ++ [db_item])
          (newly_listed_items
           ++ [ItemDetails.mk (ForSaleItem.def_name db_item)
                 (ForSaleItem.quantity db_item) (ForSaleItem.price db_item)
                 (ForSaleItem.player_name db_item) (ForSaleItem.quality db_item)
                 None None])
          records'
      else (Raised OverflowError, rows)
  end.

Definition handle_trade (db : Database) (records : list TradeRecordModel.t)
    (user : Payload.t) (now : Z) : Outcome Z * Database :=
  match list_records user now (for_sale_items db) [] records with
  | (Raised e, rows) =>
      (Raised e,
       mkDatabase rows (sales_history db)
         (pending_sales db) (active_users db) (active_tokens db) (user_sessions db))
  | (Returned newly_listed_items, rows) =>
      let sale_record :=
        SaleHistory.mk now None None newly_listed_items 0
          (Some (Payload.steam_id user)) (Some (Payload.player_name user)) in
      (Returned (Z.of_nat (length records)),
       mkDatabase rows (sales_history db ++ [sale_record])
         (pending_sales db) (active_users db) (active_tokens db) (user_sessions db))
  end.

(** ** [remove_item] *)

(** [select(ForSaleItem).where(ForSaleItem.seller_steam_id == user_steam_id)]:
    the seller's rows in retrieval order, each with its position in the
    table. *)
Definition select_by_seller (rows : list ForSaleItem.t) (user_steam_id : string)
    : list (nat * ForSaleItem.t) :=
  filter (λ p, ForSaleItem.seller_steam_id p.2 = user_steam_id)
         (imap (λ i row, (i, row)) rows).

(** Python's [l[i]]: a negative [i] counts from the end; [None] stands for
    the [IndexError] of an index out of range on either side. *)
Definition py_index {A : Type} (l : list A) (i : Z) : option A :=
  if decide (0 ≤ i) then l !! Z.to_nat i
  else if decide (- Z.of_nat (length l) ≤ i)
       then l !! Z.to_nat (Z.of_nat (length l) + i)
       else None.

Definition remove_item (db : Database) (index : Z) (user : Payload.t)
    : Outcome ForSaleItem.t * Database :=
  let item_index := index in
  let my_items := select_by_seller (for_sale_items db) (Payload.steam_id user) in
  if decide (item_index >= Z.of_nat (length my_items)) then (Raised InvalidIndex, db)
  else
    match py_index my_items item_index with
    | None => (Raised IndexError, db)
    | Some (pos, item) =>
        (Returned item,
         mkDatabase (delete pos (for_sale_items db))
           (sales_history db) (pending_sales db)
           (active_users db) (active_tokens db) (user_sessions db))
    end.

(** ** [claim_sales] *)

Module ClaimResponse.
Record t := mk {
  total_claimed : Z;
  claimed_sales_count : Z }.
End ClaimResponse.

(** [sum(sale.price * sale.quantity for sale in user_pending_sales)] *)
Definition sum_price_quantity (sales : list PendingSale.t) : Z :=
  foldr (λ sale acc, PendingSale.price sale * PendingSale.quantity sale + acc) 0 sales.

Definition claim_sales (db : Database) (user : Payload.t)
    : ClaimResponse.t * Database :=
  let steam_id := Payload.steam_id user in
  let user_pending_sales :=
    filter (λ sale, PendingSale.seller_steam_id sale = steam_id) (pending_sales db) in
  match user_pending_sales with
  | [] => (ClaimResponse.mk 0 0, db)
  | _ =>
      let total_silver_claimed := sum_price_quantity user_pending_sales in
      (ClaimResponse.mk total_silver_claimed (Z.of_nat (length user_pending_sales)),
       mkDatabase (for_sale_items db) (sales_history db)
         (filter (λ sale, PendingSale.seller_steam_id sale ≠ steam_id) (pending_sales db))
         (active_users db) (active_tokens db) (user_sessions db))
  end.

(** [get_pending_sales]: read only. *)
Definition get_pending_sales (db : Database) (user : Payload.t) : list PendingSale.t :=
  filter (λ sale, PendingSale.seller_steam_id sale = Payload.steam_id user)
         (pending_sales db).

(** ** Tokens: [generate_jwt_token], [verify_jwt_token], [logout] *)

Definition JWT_EXPIRATION_HOURS : Z := 24.

Inductive JwtError :=
| ExpiredSignatureError
| InvalidTokenError.

Module ActiveTokenOps.
Definition set_expires_at (e : Z) (row : ActiveToken.t) : ActiveToken.t :=
  ActiveToken.mk (ActiveToken.steam_id row) (ActiveToken.player_name row)
    (ActiveToken.issued_at row) e (ActiveToken.revoked row).
Definition set_revoked (r : Z) (row : ActiveToken.t) : ActiveToken.t :=
  ActiveToken.mk (ActiveToken.steam_id row) (ActiveToken.player_name row)
    (ActiveToken.issued_at row) (ActiveToken.expires_at row) r.
End ActiveTokenOps.

Definition set_last_seen (t : Z) (row : ActiveUser.t) : ActiveUser.t :=
  ActiveUser.mk (ActiveUser.player_name row) t.

Definition set_exp (e : Z) (payload : Payload.t) : Payload.t :=
  Payload.mk (Payload.steam_id payload) (Payload.player_name payload) e
    (Payload.iat payload) (Payload.jti payload).

(** [.values(session_end=t, is_active=False)] *)
Definition end_session (t : Z) (s : UserSession.t) : UserSession.t :=
  UserSession.mk (UserSession.steam_id s) (UserSession.player_name s)
    (UserSession.session_start s) (Some t) (UserSession.last_activity s)
    false (UserSession.user_agent s).

Section Jwt.

(** The [jwt] package is an external library.  Signing and signature
    verification under [JWT_SECRET_KEY] and [JWT_ALGORITHM] are two unknown
    functions: [jwt_encode] is [jwt.encode], and [jwt_claims token] is the
    claims that [jwt.decode] finds in [token] when its structure and signature
    are good ([None] when they are not). *)
Variable jwt_encode : Payload.t → string.
Variable jwt_claims : string → option Payload.t.

(** [jwt.decode(token, JWT_SECRET_KEY, algorithms=[JWT_ALGORITHM])]: after the
    signature, the library checks the claims against the clock.  It raises
    [ExpiredSignatureError] when [exp <= now] and [ImmatureSignatureError],
    which is an [InvalidTokenError], when [iat > now]; every other failure is
    an [InvalidTokenError] too.  The library looks at [iat] before [exp] and
    the definition at [exp] first: the tokens accepted are the same, and so is
    the error of every token whose [exp] is after its [iat], as it is in each
    token [generate_jwt_token] signs. *)
Definition jwt_decode (token : string) (now : Z) : JwtError + Payload.t :=
  match jwt_claims token with
  | None => inl InvalidTokenError
  | Some payload =>
      if decide (Payload.exp payload ≤ now) then inl ExpiredSignatureError
      else if decide (now < Payload.iat payload) then inl InvalidTokenError
      else inr payload
  end.

Definition generate_jwt_token (db : Database) (steam_id player_name : string)
    (user_agent : option string) (uuid4 : string) (now : Z)
    : Outcome string * Database :=
  let expiration := now + JWT_EXPIRATION_HOURS * 3600 in
  let payload := Payload.mk steam_id player_name expiration now uuid4 in
  let token := jwt_encode payload in
  match active_tokens db !! token with
  | Some _ => (Raised IntegrityError, db)
  | None =>
      let db_token := ActiveToken.mk steam_id player_name now expiration 0 in
      let users' :=
        match active_users db !! steam_id with
        | Some existing_user =>
            <[steam_id := ActiveUser.mk player_name now]> (active_users db)
        | None => <[steam_id := ActiveUser.mk player_name now]> (active_users db)
        end in
      let db_session :=
        UserSession.mk steam_id player_name now None now true user_agent in
      (Returned token,
       mkDatabase (for_sale_items db) (sales_history db) (pending_sales db)
         users' (<[token := db_token]> (active_tokens db))
         (user_sessions db ++ [db_session]))
  end.

Definition verify_jwt_token (db : Database) (token : string) (now : Z)
    : (option Payload.t * string) * Database :=
  match active_tokens db !! token with
  | None => ((None, "Token has been revoked"), db)
  | Some db_token =>
      if decide (ActiveToken.revoked db_token = 1) then
        ((None, "Token has been revoked"), db)
      else
        match jwt_decode token now with
        | inl ExpiredSignatureError => ((None, "Token has expired"), db)
        | inl InvalidTokenError => ((None, "Invalid token"), db)
        | inr payload =>
            let steam_id := Payload.steam_id payload in
            if truthy steam_id then
              let new_expiration := now + JWT_EXPIRATION_HOURS * 3600 in
              ((Some (set_exp new_expiration payload), "Valid"),
               mkDatabase (for_sale_items db) (sales_history db) (pending_sales db)
                 (alter (set_last_seen now) steam_id (active_users db))
                 (alter (ActiveTokenOps.set_expires_at new_expiration) token
                        (active_tokens db))
                 (user_sessions db))
            else ((Some payload, "Valid"), db)
        end
  end.

End Jwt.

(** Body of [logout]; [token] is the bearer token of the request and [user]
    the claims [get_current_user] returned for it. *)
Definition logout (db : Database) (token : string) (user : Payload.t) (now : Z)
    : Database :=
  let steam_id := Payload.steam_id user in
  let tokens' := alter (ActiveTokenOps.set_revoked 1) token (active_tokens db) in
  let sessions' :=
    (λ s, if decide (UserSession.steam_id s = steam_id
                     ∧ UserSession.is_active s = true)
          then end_session now s else s) <$> user_sessions db in
  let active_tokens_count :=
    filter (λ kv, ActiveToken.steam_id kv.2 = steam_id
                  ∧ ActiveToken.revoked kv.2 = 0) tokens' in
  let users' :=
    if decide (size active_tokens_count = 0%nat) then delete steam_id (active_users db)
    else active_users db in
  mkDatabase (for_sale_items db) (sales_history db) (pending_sales db)
    users' tokens' sessions'.

(** ** The sweep: [manual_cleanup] and [cleanup_expired_tokens] *)

(** "Remove all tokens for inactive users" and "Remove the user", for one
    [user] of [inactive_users]. *)
Definition remove_inactive_user
    (st : gmap string ActiveUser.t * gmap string ActiveToken.t)
    (user : string * ActiveUser.t)
    : gmap string ActiveUser.t * gmap string ActiveToken.t :=
  (delete user.1 st.1,
   filter (λ kv, ActiveToken.steam_id kv.2 ≠ user.1) st.2).

(** One pass, the [try] block both functions share word for word. *)
Definition cleanup_pass (db : Database) (current_time : Z) : nat * Database :=
  let tokens1 :=
    filter (λ kv, ¬ ActiveToken.expires_at kv.2 < current_time) (active_tokens db) in
  let inactive_session_threshold := current_time - 2 * 3600 in
  let sessions' :=
    (λ s, if decide (UserSession.last_activity s < inactive_session_threshold
                     ∧ UserSession.is_active s = true)
          then end_session current_time s else s) <$> user_sessions db in
  let inactive_threshold := current_time - 24 * 3600 in
  let inactive_users :=
    map_to_list
      (filter (λ kv, ActiveUser.last_seen kv.2 < inactive_threshold) (active_users db)) in
  let st := foldl remove_inactive_user (active_users db, tokens1) inactive_users in
  (length inactive_users,
   mkDatabase (for_sale_items db) (sales_history db) (pending_sales db)
     st.1 st.2 sessions').

Definition manual_cleanup (db : Database) (current_time : Z) : nat * Database :=
  cleanup_pass db current_time.

(** The background loop, run for the passes that start at the given times
    (the loop itself never ends). *)
Definition cleanup_expired_tokens (db : Database) (times : list Z) : Database :=
  foldl (λ db current_time, (cleanup_pass db current_time).2) db times.

(** ** Notions used in the statements *)

(** Sum of the proceeds ([total_silver]) of escrow rows. *)
Definition total_proceeds (sales : list PendingSale.t) : Z :=
  foldr (λ sale acc, PendingSale.total_silver sale + acc) 0 sales.

(** Every row has a seller identity that [if item.seller_steam_id:] accepts. *)
Definition has_seller (item : ForSaleItem.t) : Prop :=
  truthy (ForSaleItem.seller_steam_id item) = true.

(** Two rows that differ at most in [quantity], the one column the second
    loop of [handle_buy] writes. *)
Definition same_listing (a b : ForSaleItem.t) : Prop :=
  ForSaleItem.def_name a = ForSaleItem.def_name b
  ∧ ForSaleItem.price a = ForSaleItem.price b
  ∧ ForSaleItem.player_name a = ForSaleItem.player_name b
  ∧ ForSaleItem.seller_steam_id a = ForSaleItem.seller_steam_id b
  ∧ ForSaleItem.quality a = ForSaleItem.quality b
  ∧ ForSaleItem.item_id a = ForSaleItem.item_id b
  ∧ ForSaleItem.listed_at a = ForSaleItem.listed_at b.

(** The loaded objects are the rows of the table, up to [quantity]. *)
Definition tracks (rows : list ForSaleItem.t) (objs : list Loaded) : Prop :=
  Forall2 (λ row o, same_listing row (obj o)) rows objs.

(** The listing a line resolves to: [matching_items[0]]. *)
Definition resolve (rows : list ForSaleItem.t) (r : BuyItemRequest.t)
    : option ForSaleItem.t :=
  head (matching_items rows r).

(** The listing a line resolves to, if any, has a seller identity. *)
Definition line_has_seller (rows : list ForSaleItem.t) (r : BuyItemRequest.t)
    : Prop :=
  ∀ item, resolve rows r = Some item → has_seller item.

(** A successful buy appends escrow rows and one history record, and the
    proceeds of the former add up to the total cost of the latter. *)
Definition buy_proceeds_match (db : Database) (data : BuyRequest.t)
    (user : Payload.t) (now : Z) : Prop :=
  ∀ resp db', handle_buy db data user now = (Returned resp, db') →
  ∃ created record,
    pending_sales db' = pending_sales db ++ created
    ∧ sales_history db' = sales_history db ++ [record]
    ∧ total_proceeds created = SaleHistory.total_cost record.

(** ** Sample data *)

Module Sample.
Definition knife (quantity : Z) (seller_steam_id : string) : ForSaleItem.t :=
  ForSaleItem.mk "ironKnife" quantity 10 "sam" seller_steam_id "" None 0.
Definition market (quantity : Z) (seller_steam_id : string) : Database :=
  mkDatabase [knife quantity seller_steam_id] [] [] ∅ ∅ [].
Definition alice : Payload.t := Payload.mk "steam_alice" "alice" 86400 0 "jti-a".
Definition sam : Payload.t := Payload.mk "steam_sam" "sam" 86400 0 "jti-s".
Definition line (quantity : Z) : BuyItemRequest.t :=
  BuyItemRequest.mk "ironKnife" quantity "sam".
End Sample.

(** How the first loop of [handle_buy] judges one line against the table. *)
Definition line_ok (rows : list ForSaleItem.t) (r : BuyItemRequest.t) : Prop :=
  ∃ item, resolve rows r = Some item
          ∧ BuyItemRequest.quantity r ≤ ForSaleItem.quantity item.

Definition line_missing (rows : list ForSaleItem.t) (r : BuyItemRequest.t) : Prop :=
  resolve rows r = None.

Definition line_short (rows : list ForSaleItem.t) (r : BuyItemRequest.t) : Prop :=
  ∃ item, resolve rows r = Some item
          ∧ BuyItemRequest.quantity r > ForSaleItem.quantity item.

(** Unit price times requested quantity, summed over the lines. *)
Fixpoint required_cost (rows : list ForSaleItem.t) (reqs : list BuyItemRequest.t)
    : Z :=
  match reqs with
  | [] => 0
  | r :: reqs' =>
      match resolve rows r with
      | Some item => ForSaleItem.price item * BuyItemRequest.quantity r
      | None => 0
      end + required_cost rows reqs'
  end.

Definition is_stock_rejection (e : Exception) : Prop :=
  match e with
  | ItemUnavailable _ _ | InsufficientStock _ _ _ => True
  | _ => False
  end.

Module SampleLines.
Definition plasteel : BuyItemRequest.t := BuyItemRequest.mk "plasteel" 1 "sam".
End SampleLines.

(** The stored expiry of every token is at least the [exp] claim signed into
    it, and no [exp] claim lies more than the lifetime ahead of the clock:
    [generate_jwt_token] writes both as the issue time plus the lifetime, and
    afterwards the stored one only moves forward. *)
Definition token_inv (jwt_claims : string → option Payload.t) (clock : Z)
    (tokens : gmap string ActiveToken.t) : Prop :=
  ∀ token row payload,
    tokens !! token = Some row → jwt_claims token = Some payload →
    Payload.exp payload ≤ ActiveToken.expires_at row
    ∧ Payload.exp payload ≤ clock + JWT_EXPIRATION_HOURS * 3600.

(** Every accepted validation renews: whenever [verify_jwt_token] accepts,
    the stored expiry of the token is [now] plus 24 hours and the presence
    record of the identity in the claims, if there is one, was last seen
    [now]. *)
Definition validation_slides (jwt_claims : string → option Payload.t)
    (db : Database) (token : string) (now : Z) : Prop :=
  ∀ payload message db',
    verify_jwt_token jwt_claims db token now = ((Some payload, message), db') →
    ActiveToken.expires_at <$> active_tokens db' !! token
    = Some (now + 24 * 3600)
    ∧ active_users db' !! Payload.steam_id payload
      = set_last_seen now <$> active_users db !! Payload.steam_id payload.

(** C8 as stated, for one token without a row and one with a revoked row:
    the two are rejected with different reasons. *)
Definition unknown_distinct_from_revoked (jwt_claims : string → option Payload.t)
    (db : Database) (unknown revoked : string) (now : Z) : Prop :=
  active_tokens db !! unknown = None →
  ActiveToken.revoked <$> active_tokens db !! revoked = Some 1 →
  (verify_jwt_token jwt_claims db unknown now).1.2
  ≠ (verify_jwt_token jwt_claims db revoked now).1.2.

(** The messages [verify_jwt_token] rejects with. *)
Definition reject_messages : list string :=
  ["Token has been revoked"; "Token has expired"; "Invalid token"].

Module SampleTokens.
(** A verifier that accepts exactly three token strings. *)
Definition claims (token : string) : option Payload.t :=
  if decide (token = "tok-sam") then Some Sample.sam
  else if decide (token = "tok-alice") then Some Sample.alice
  else if decide (token = "tok-anon") then Some (Payload.mk "" "anon" 86400 0 "jti-0")
  else None.
Definition row (steam_id player_name : string) (revoked : Z) : ActiveToken.t :=
  ActiveToken.mk steam_id player_name 0 86400 revoked.
Definition db : Database :=
  mkDatabase [] [] []
    (<["steam_sam" := ActiveUser.mk "sam" 0]>
       (<["steam_alice" := ActiveUser.mk "alice" 0]> ∅))
    (<["tok-sam" := row "steam_sam" "sam" 1]>
       (<["tok-alice" := row "steam_alice" "alice" 0]>
          (<["tok-anon" := row "" "anon" 0]> ∅)))
    [].
End SampleTokens.

(** The proceeds of an escrow row are its unit price times its quantity, as
    [handle_buy], the only writer of the table, computes them. *)
Definition escrow_consistent (sales : list PendingSale.t) : Prop :=
  Forall (λ sale, PendingSale.total_silver sale
                  = PendingSale.price sale * PendingSale.quantity sale) sales.

(** A session that is no longer active has its end recorded. *)
Definition sessions_closed (sessions : list UserSession.t) : Prop :=
  Forall (λ s, UserSession.is_active s = false
               → is_Some (UserSession.session_end s)) sessions.

Module SampleEscrow.
Definition sale (seller : string) (quantity price : Z) : PendingSale.t :=
  PendingSale.mk seller "alice" "ironKnife" quantity price (price * quantity) 7.
Definition db : Database :=
  mkDatabase [] [] [sale "steam_sam" 2 10; sale "steam_bob" 1 7; sale "steam_sam" 3 5]
    ∅ ∅ [].
End SampleEscrow.

Module SampleSweep.
Definition session (last_activity : Z) (is_active : bool) (session_end : option Z)
    : UserSession.t :=
  UserSession.mk "steam_sam" "sam" 0 session_end last_activity is_active None.
(** At time 100000: sam was last seen at 0 (idle for more than 24 hours) and
    holds a token that would expire only at 200000; alice was seen at 99000
    and holds one token that expired at 5 and one that is still good. *)
Definition db : Database :=
  mkDatabase [] [] []
    (<["steam_sam" := ActiveUser.mk "sam" 0]>
       (<["steam_alice" := ActiveUser.mk "alice" 99000]> ∅))
    (<["tok-sam" := ActiveToken.mk "steam_sam" "sam" 0 200000 0]>
       (<["tok-old" := ActiveToken.mk "steam_alice" "alice" 0 5 0]>
          (<["tok-new" := ActiveToken.mk "steam_alice" "alice" 0 150000 0]> ∅)))
    [session 10 true None; session 99000 true None; session 10 false (Some 20)].
End SampleSweep.

Module SampleListings.
(** Three listings: sam's, bob's, sam's. *)
Definition db : Database :=
  mkDatabase
    [Sample.knife 1 "steam_sam"; Sample.knife 2 "steam_bob";
     Sample.knife 3 "steam_sam"] [] [] ∅ ∅ [].
End SampleListings.

(** The position in the table of the listing a line resolves to. *)
Definition line_position (rows : list ForSaleItem.t) (r : BuyItemRequest.t)
    : option nat :=
  fst <$> list_find (is_match r) rows.

(** Every listing on sale has at least one unit. *)
Definition quantities_positive (rows : list ForSaleItem.t) : Prop :=
  Forall (λ row, 1 ≤ ForSaleItem.quantity row) rows.

(** ** The server as a transition system *)

(** What a request asks for once [get_current_user] has let it through. *)
Inductive Action :=
| ValidateToken
| Logout
| Buy (data : BuyRequest.t)
| Trade (records : list TradeRecordModel.t)
| RemoveItem (index : Z)
| ClaimSales
| ManualCleanup.

Inductive Request :=
| Login (steam_id player_name : string) (user_agent : option string)
        (uuid4 : string)
| Authenticated (token : string) (action : Action)
| BackgroundCleanup.

Section Server.

Variable jwt_encode : Payload.t → string.
Variable jwt_claims : string → option Payload.t.

(** The store after a request served at time [now].  A handler behind
    [Depends(get_current_user)] runs only when [verify_jwt_token] returns a
    payload, and after the commit of that validation. *)
Definition serve (db : Database) (req : Request) (now : Z) : Database :=
  match req with
  | Login steam_id player_name user_agent uuid4 =>
      (generate_jwt_token jwt_encode db steam_id player_name user_agent uuid4 now).2
  | Authenticated token action =>
      match verify_jwt_token jwt_claims db token now with
      | ((None, _), db1) => db1
      | ((Some user, _), db1) =>
          match action with
          | ValidateToken => db1
          | Logout => logout db1 token user now
          | Buy data => (handle_buy db1 data user now).2
          | Trade records => (handle_trade db1 records user now).2
          | RemoveItem index => (remove_item db1 index user).2
          | ClaimSales => (claim_sales db1 user).2
          | ManualCleanup => (manual_cleanup db1 now).2
          end
      end
  | BackgroundCleanup => (cleanup_pass db now).2
  end.

(** The stores the server can be in at a given time, starting empty, with a
    clock that never runs backwards. *)
Inductive reachable : Z → Database → Prop :=
| reachable_empty clock :
    reachable clock (mkDatabase [] [] [] ∅ ∅ [])
| reachable_serve clock db req now :
    reachable clock db → clock ≤ now → reachable now (serve db req now).

End Server.

(** An encoder and a verifier that read back what was encoded: the claims as
    a tuple, numbered by [encode], the number written in binary. *)
Module SampleJwt.
Fixpoint bits (p : positive) : string :=
  match p with
  | xH => EmptyString
  | xO p => String "0"%char (bits p)
  | xI p => String "1"%char (bits p)
  end.
Fixpoint unbits (s : string) : positive :=
  match s with
  | EmptyString => xH
  | String c s => if decide (c = "0"%char) then xO (unbits s) else xI (unbits s)
  end.
Definition to_tuple (p : Payload.t) : string * string * Z * Z * string :=
  (Payload.steam_id p, Payload.player_name p, Payload.exp p, Payload.iat p,
   Payload.jti p).
Definition of_tuple (t : string * string * Z * Z * string) : Payload.t :=
  let '(steam_id, player_name, exp, iat, jti) := t in
  Payload.mk steam_id player_name exp iat jti.
Definition jwt_encode (p : Payload.t) : string := bits (encode (to_tuple p)).
Definition jwt_claims (token : string) : option Payload.t :=
  of_tuple <$> decode (unbits token).
End SampleJwt.

(** A run of the server under the sample encoder: a login for which the
    identity gateway returned the empty identity, then a listing of five
    knives under the token of that login. *)
Module SampleRun.
Definition token : string :=
  SampleJwt.jwt_encode (Payload.mk "" "sam" 86400 0 "uuid-1").
Definition after_login : Database :=
  serve SampleJwt.jwt_encode SampleJwt.jwt_claims (mkDatabase [] [] [] ∅ ∅ [])
    (Login "" "sam" None "uuid-1") 0.
Definition after_listing : Database :=
  serve SampleJwt.jwt_encode SampleJwt.jwt_claims after_login
    (Authenticated token (Trade [TradeRecordModel.mk "ironKnife" 5 10 ""])) 1.
End SampleRun.

(** Another run: a login of sam at time 0, for which the token is signed with
    [exp] 86400, and a validation of that token at 82800, an hour before. *)
Module SampleRenewal.
Definition token : string :=
  SampleJwt.jwt_encode (Payload.mk "steam_sam" "sam" 86400 0 "uuid-1").
Definition after_login : Database :=
  serve SampleJwt.jwt_encode SampleJwt.jwt_claims (mkDatabase [] [] [] ∅ ∅ [])
    (Login "steam_sam" "sam" None "uuid-1") 0.
Definition after_validation : Database :=
  serve SampleJwt.jwt_encode SampleJwt.jwt_claims after_login
    (Authenticated token ValidateToken) 82800.
End SampleRenewal.

(** * The rest of [Server/server.py] *)

(** ** [validate_steam_ticket_with_api] *)

(** [HTTPException(status_code=.., detail=..)] of the authentication layer. *)
Record HTTPException := mkHTTPException {
  status_code : Z;
  detail : string }.

(** [data["response"]] of a reply of the Steam web API: whether it has an
    "error" key, and [params.steamid] when both keys are there. *)
Module SteamResponse.
Record t := mk {
  error : bool;
  steamid : option string }.
End SteamResponse.

(** What one [requests.get] followed by [response.json()] comes to: the
    status 401, an exception of [requests] (a [RequestException], among them
    the time-out, or a [JSONDecodeError]), any other exception, or the decoded
    body, with [None] for a body without a "response" key. *)
Inductive SteamReply :=
| Status401
| RequestFailed
| OtherFailure
| Json (response : option SteamResponse.t).

(** How the [try] block of one attempt ends. *)
Inductive Raise :=
| RaiseHTTP (e : HTTPException)
| RaiseRequestException
| RaiseException.

Inductive TryBlock :=
| SleepAndContinue
| Return (steam_id : string)
| Raises (e : Raise).

Definition max_retries : nat := 3.

Definition try_block (reply : SteamReply) (attempt : nat) : TryBlock :=
  match reply with
  | RequestFailed => Raises RaiseRequestException
  | OtherFailure => Raises RaiseException
  | Status401 =>
      if decide (attempt < max_retries - 1)%nat then SleepAndContinue
      else Raises (RaiseHTTP (mkHTTPException 401 "Steam authentication failed"))
  | Json None =>
      Raises (RaiseHTTP (mkHTTPException 401 "Invalid Steam response"))
  | Json (Some response_data) =>
      if SteamResponse.error response_data then
        Raises (RaiseHTTP (mkHTTPException 401 "Steam authentication failed"))
      else
        match SteamResponse.steamid response_data with
        | Some steam_id => Return steam_id
        | None =>
            Raises (RaiseHTTP (mkHTTPException 401 "Steam authentication failed"))
        end
  end.

(** The two [except] clauses: the first retries an exception of [requests]
    while attempts are left, the second catches everything else, the
    [HTTPException]s of the block included, and raises its own. *)
Definition except_clauses (e : Raise) (attempt : nat) : TryBlock :=
  match e with
  | RaiseRequestException =>
      if decide (attempt < max_retries - 1)%nat then SleepAndContinue
      else Raises (RaiseHTTP (mkHTTPException 401 "Steam authentication failed"))
  | RaiseHTTP _ | RaiseException =>
      Raises (RaiseHTTP (mkHTTPException 401 "Steam authentication failed"))
  end.

(** What the caller sees, the number of requests sent and the seconds
    slept. *)
Module SteamResult.
Record t := mk {
  outcome : Raise + string;
  requests : nat;
  slept : nat }.
End SteamResult.

(** [for attempt in range(max_retries)], from the attempts still to run. *)
Fixpoint steam_attempts (steam_api : nat → SteamReply) (attempts : list nat)
    (requests slept : nat) : SteamResult.t :=
  match attempts with
  | [] =>
      SteamResult.mk
        (inl (RaiseHTTP (mkHTTPException 401 "Steam authentication failed")))
        requests slept
  | attempt :: attempts' =>
      let after_try :=
        match try_block (steam_api attempt) attempt with
        | Raises e => except_clauses e attempt
        | ended => ended
        end in
      match after_try with
      | SleepAndContinue =>
          steam_attempts steam_api attempts' (S requests) (S slept)
      | Return steam_id => SteamResult.mk (inr steam_id) (S requests) slept
      | Raises e => SteamResult.mk (inl e) (S requests) slept
      end
  end.

(** [steam_api ticket attempt] is the reply to the request of that attempt. *)
Definition validate_steam_ticket_with_api (STEAM_API_KEY : string)
    (steam_api : string → nat → SteamReply) (auth_ticket_base64 : string)
    : SteamResult.t :=
  if negb (truthy STEAM_API_KEY) || bool_decide (STEAM_API_KEY = "YOUR_STEAM_API_KEY")
  then SteamResult.mk (inr "mock_steam_id_12345") 0 0
  else steam_attempts (steam_api auth_ticket_base64) (seq 0 max_retries) 0 0.

(** A reply the loop retries. *)
Definition transient (reply : SteamReply) : Prop :=
  reply = Status401 ∨ reply = RequestFailed.

(** ** [get_current_user] *)

(** Python's [s[n:]]. *)
Fixpoint string_from (n : nat) (s : string) : string :=
  match n, s with
  | O, _ => s
  | S n', String _ s' => string_from n' s'
  | S _, EmptyString => EmptyString
  end.

Section Authentication.

Variable jwt_encode : Payload.t → string.
Variable jwt_claims : string → option Payload.t.

Definition get_current_user (db : Database) (authorization : option string)
    (now : Z) : (HTTPException + Payload.t) * Database :=
  match authorization with
  | None => (inl (mkHTTPException 401 "Missing authorization header"), db)
  | Some authorization =>
      if negb (truthy authorization) then
        (inl (mkHTTPException 401 "Missing authorization header"), db)
      else if negb (String.prefix "Bearer " authorization) then
        (inl (mkHTTPException 400 "Invalid authorization format"), db)
      else
        let token := string_from 7 authorization in
        match verify_jwt_token jwt_claims db token now with
        | ((None, message), db') => (inl (mkHTTPException 401 "Invalid token"), db')
        | ((Some payload, message), db') => (inr payload, db')
        end
  end.

(** ** [login] *)

Inductive LoginOutcome :=
| LoggedIn (token : string)
| LoginRefused (e : Raise)
| LoginCrashed (e : Exception).

Definition login (STEAM_API_KEY : string) (steam_api : string → nat → SteamReply)
    (db : Database) (authTicket playerName : string) (user_agent : option string)
    (uuid4 : string) (now : Z) : LoginOutcome * Database :=
  match SteamResult.outcome
          (validate_steam_ticket_with_api STEAM_API_KEY steam_api authTicket) with
  | inl e => (LoginRefused e, db)
  | inr steam_id =>
      match generate_jwt_token jwt_encode db steam_id playerName user_agent
              uuid4 now with
      | (Returned token, db') => (LoggedIn token, db')
      | (Raised e, db') => (LoginCrashed e, db')
      end
  end.

End Authentication.

(** ** Read-only endpoints *)

(** The dictionary [get_my_items] and [get_for_sale] build for a row. *)
Definition listing_details (item : ForSaleItem.t) : ItemDetails.t :=
  ItemDetails.mk (ForSaleItem.def_name item) (ForSaleItem.quantity item)
    (ForSaleItem.price item) (ForSaleItem.player_name item)
    (ForSaleItem.quality item) None None.

Definition get_my_items (db : Database) (user : Payload.t)
    : list ItemDetails.t * nat :=
  let my_items :=
    filter (λ item, ForSaleItem.seller_steam_id item = Payload.steam_id user)
           (for_sale_items db) in
  let items := listing_details <$> my_items in
  (items, length items).

Definition get_for_sale (db : Database) : list ItemDetails.t :=
  listing_details <$> for_sale_items db.

Module UserInfo.
Record t := mk {
  steam_id : string;
  player_name : string;
  items_for_sale : nat;
  total_purchases : nat;
  total_sales : nat;
  last_seen : option Z }.
End UserInfo.

Definition get_user_info_endpoint (db : Database) (user : Payload.t) : UserInfo.t :=
  let steam_id := Payload.steam_id user in
  let user_items :=
    filter (λ item, ForSaleItem.seller_steam_id item = steam_id) (for_sale_items db) in
  let user_purchases :=
    filter (λ h, SaleHistory.buyer_steam_id h = Some steam_id) (sales_history db) in
  let user_sales :=
    filter (λ h, SaleHistory.seller_steam_id h = Some steam_id) (sales_history db) in
  UserInfo.mk steam_id (Payload.player_name user) (length user_items)
    (length user_purchases) (length user_sales)
    (ActiveUser.last_seen <$> active_users db !! steam_id).

(** The key is set and is not the placeholder. *)
Definition configured (STEAM_API_KEY : string) : Prop :=
  STEAM_API_KEY ≠ "" ∧ STEAM_API_KEY ≠ "YOUR_STEAM_API_KEY".

Module SampleSteam.
(** A 401, then a time-out, then the identity. *)
Definition slow (ticket : string) (attempt : nat) : SteamReply :=
  match attempt with
  | O => Status401
  | S O => RequestFailed
  | _ => Json (Some (SteamResponse.mk false (Some "76561198000000001")))
  end.
(** A body without a "response" key at the first attempt. *)
Definition garbled (ticket : string) (attempt : nat) : SteamReply := Json None.
(** Nothing but time-outs. *)
Definition down (ticket : string) (attempt : nat) : SteamReply := RequestFailed.
End SampleSteam.

(** The identity holds an unrevoked token other than [token]. *)
Definition holds_other_token (db : Database) (token steam_id : string) : Prop :=
  ∃ other row,
    other ≠ token ∧ active_tokens db !! other = Some row
    ∧ ActiveToken.steam_id row = steam_id ∧ ActiveToken.revoked row = 0.

(** The row [handle_trade] stores for a submitted record. *)
Definition listed (user : Payload.t) (now : Z) (record : TradeRecordModel.t)
    : ForSaleItem.t :=
  ForSaleItem.mk (TradeRecordModel.DefName record)
    (TradeRecordModel.Quantity record) (TradeRecordModel.Price record)
    (Payload.player_name user) (Payload.steam_id user)
    (TradeRecordModel.Quality record) None now.

(** The listings of one seller, in table order. *)
Definition owned_by (steam_id : string) (rows : list ForSaleItem.t)
    : list ForSaleItem.t :=
  filter (λ row, ForSaleItem.seller_steam_id row = steam_id) rows.

(** The numbers of a record fit the [Integer] columns they are stored in. *)
Definition storable (record : TradeRecordModel.t) : Prop :=
  int64 (TradeRecordModel.Quantity record) ∧ int64 (TradeRecordModel.Price record).

Module SampleTrade.
Definition records : list TradeRecordModel.t :=
  [TradeRecordModel.mk "steel" 40 2 ""; TradeRecordModel.mk "ironKnife" 1 12 "good"].
(** The same batch with a record of 2^63 units of gold in the middle. *)
Definition oversized : list TradeRecordModel.t :=
  [TradeRecordModel.mk "steel" 40 2 ""; TradeRecordModel.mk "gold" (2 ^ 63) 1 "";
   TradeRecordModel.mk "ironKnife" 1 12 "good"].
End SampleTrade.

(** The identity has a presence record last seen more than 24 hours before
    [now]. *)
Definition idle_user (db : Database) (now : Z) (steam_id : string) : Prop :=
  ∃ user, active_users db !! steam_id = Some user
          ∧ ActiveUser.last_seen user < now - 24 * 3600.

Section Validations.
Variable jwt_claims : string → option Payload.t.
(** The store after a series of calls of [verify_jwt_token], each with its
    token and its time. *)
Definition validations (db : Database) (uses : list (string * Z)) : Database :=
  foldl (λ db use, (verify_jwt_token jwt_claims db use.1 use.2).2) db uses.
End Validations.
(** * Properties *)

(** ** Purchases: what the second loop keeps invariant *)

Lemma total_proceeds_app (l1 l2 : list PendingSale.t) :
  total_proceeds (l1 ++ l2) = total_proceeds l1 + total_proceeds l2.
Proof.
  induction l1 as [|s l1 IH]; simpl; [lia|]. rewrite IH. lia.
Qed.

Lemma first_match_Some objs r i o :
  first_match objs r = Some (i, o) →
  objs !! i = Some o ∧ is_match r (obj o).
Proof.
  unfold first_match. intros H. apply list_find_Some in H. tauto.
Qed.

(** A raise inside the session block leaves every table as it was. *)
Lemma handle_buy_raised db data user now e db' :
  handle_buy db data user now = (Raised e, db') → db' = db.
Proof.
  unfold handle_buy.
  destruct (validate_purchases _ _ _); [|by intros [= _ <-]].
  case_decide; by intros [= <-].
Qed.

Lemma same_listing_refl a : same_listing a a.
Proof. by repeat split. Qed.

Lemma same_listing_sub a b n :
  same_listing a b → same_listing a (ForSaleItem.sub_quantity b n).
Proof. unfold same_listing. by destruct b. Qed.

Lemma same_listing_match r a b :
  same_listing a b → is_match r a ↔ is_match r b.
Proof.
  unfold same_listing, is_match. intros (-> & _ & -> & _). done.
Qed.

Lemma tracks_load rows : tracks rows (load rows).
Proof.
  unfold tracks, load. apply Forall2_fmap_r, Forall_Forall2_diag.
  apply Forall_forall. intros. apply same_listing_refl.
Qed.

(** [matching_items[0]] is the first row the condition holds for. *)
Lemma head_filter_list_find {A} (P : A → Prop) `{!∀ x, Decision (P x)}
    (l : list A) :
  head (filter P l) = snd <$> list_find P l.
Proof.
  induction l as [|a l IH]; [done|].
  rewrite filter_cons. simpl. destruct (decide (P a)); [done|].
  rewrite IH. by destruct (list_find P l) as [[??]|].
Qed.

(** Searching the loaded objects finds the position the table search finds:
    the condition reads two columns no purchase writes. *)
Lemma first_match_tracks rows objs r :
  tracks rows objs →
  match first_match objs r with
  | Some (i, o) =>
      ∃ item, list_find (is_match r) rows = Some (i, item)
              ∧ same_listing item (obj o)
  | None => list_find (is_match r) rows = None
  end.
Proof.
  unfold tracks, first_match. induction 1 as [|row o rows objs Hs _ IH]; [done|].
  simpl. destruct (decide (is_match r (obj o))) as [Hm|Hm].
  - rewrite decide_True by (by apply (same_listing_match r row (obj o))). eauto.
  - rewrite decide_False by (by rewrite (same_listing_match r row (obj o))).
    destruct (list_find _ objs) as [[i o']|]; simpl.
    + destruct IH as (item & -> & ?). simpl. eauto.
    + by rewrite IH.
Qed.

Lemma first_match_resolve rows objs r i o :
  tracks rows objs → first_match objs r = Some (i, o) →
  ∃ item, resolve rows r = Some item ∧ rows !! i = Some item
          ∧ objs !! i = Some o ∧ same_listing item (obj o).
Proof.
  intros Ht Hf. pose proof (first_match_tracks rows objs r Ht) as H.
  rewrite Hf in H. destruct H as (item & Hfind & Hs).
  exists item. unfold resolve, matching_items.
  rewrite head_filter_list_find, Hfind. split; [done|].
  apply list_find_Some in Hfind as (? & _). apply first_match_Some in Hf as [? _].
  done.
Qed.

Lemma first_match_None_resolve rows objs r :
  tracks rows objs → first_match objs r = None → resolve rows r = None.
Proof.
  intros Ht Hf. pose proof (first_match_tracks rows objs r Ht) as H.
  rewrite Hf in H. unfold resolve, matching_items.
  by rewrite head_filter_list_find, H.
Qed.

Lemma process_purchase_tracks rows buyer now st r :
  tracks rows (BuyState.loaded st) →
  tracks rows (BuyState.loaded (process_purchase buyer now st r)).
Proof.
  intros Ht. unfold process_purchase.
  destruct (first_match (BuyState.loaded st) r) as [[i o]|] eqn:Hfind; [|done].
  destruct (first_match_resolve _ _ _ _ _ Ht Hfind) as (item & _ & Hi & Ho & Hs).
  simpl. unfold tracks in *.
  rewrite <- (list_insert_id rows i item Hi).
  case_decide; apply Forall2_insert; auto using same_listing_sub.
Qed.

Lemma process_purchases_tracks rows buyer now reqs st :
  tracks rows (BuyState.loaded st) →
  tracks rows (BuyState.loaded (process_purchases buyer now reqs st)).
Proof.
  revert st. induction reqs as [|r reqs IH]; intros st Ht; [done|].
  apply IH. by apply process_purchase_tracks.
Qed.

(** ** The escrow rows of a purchase and its history record *)

Lemma process_purchase_proceeds rows buyer now st r :
  tracks rows (BuyState.loaded st) → line_has_seller rows r →
  total_proceeds (BuyState.added (process_purchase buyer now st r))
    - BuyState.total_cost (process_purchase buyer now st r)
  = total_proceeds (BuyState.added st) - BuyState.total_cost st.
Proof.
  intros Ht Hseller. unfold process_purchase.
  destruct (first_match (BuyState.loaded st) r) as [[i o]|] eqn:Hfind; [|done].
  destruct (first_match_resolve _ _ _ _ _ Ht Hfind) as (item & Hr & _ & _ & Hs).
  apply Hseller in Hr. unfold has_seller in Hr.
  destruct Hs as (_ & _ & _ & Hid & _). rewrite Hid in Hr.
  simpl. rewrite Hr, total_proceeds_app. simpl. lia.
Qed.

Lemma process_purchases_proceeds rows buyer now reqs st :
  tracks rows (BuyState.loaded st) → Forall (line_has_seller rows) reqs →
  total_proceeds (BuyState.added (process_purchases buyer now reqs st))
    - BuyState.total_cost (process_purchases buyer now reqs st)
  = total_proceeds (BuyState.added st) - BuyState.total_cost st.
Proof.
  revert st. induction reqs as [|r reqs IH]; intros st Ht Hall; [done|].
  apply Forall_cons in Hall as [Hr Hall].
  unfold process_purchases in *. simpl.
  rewrite IH by (by try apply process_purchase_tracks).
  by apply (process_purchase_proceeds rows).
Qed.

(** C2, as stated, fails: a listing whose [seller_steam_id] is empty is sold
    and charged, but [if item.seller_steam_id:] skips its escrow row.  One
    knife at 10 silver without a seller identity: no escrow row, total cost
    10. *)
Lemma buy_proceeds_differ_without_seller :
  ¬ buy_proceeds_match (Sample.market 5 "")
      (BuyRequest.mk [Sample.line 1] 100) Sample.alice 7.
Proof.
  intros H. destruct (H _ _ eq_refl) as (created & record & Hp & Hh & Hsum).
  vm_compute in Hp. subst created.
  vm_compute in Hh. injection Hh as <-.
  vm_compute in Hsum. discriminate.
Qed.

(** C2 (amended): when every line of the batch resolves to a listing that
    has a seller identity, a successful buy appends escrow rows whose
    proceeds add up to the total cost of the one history record it appends. *)
Theorem buy_proceeds_match_with_sellers db data user now :
  Forall (line_has_seller (for_sale_items db)) (BuyRequest.items data) →
  buy_proceeds_match db data user now.
Proof.
  intros Hall resp db'. unfold handle_buy.
  destruct (validate_purchases _ _ _) as [required|]; [|done].
  case_decide; [done|]. intros [= _ <-]. simpl.
  eexists _, _. split; [done|]. split; [done|]. simpl.
  pose proof (process_purchases_proceeds (for_sale_items db)
    (Payload.player_name user) now (BuyRequest.items data)
    (BuyState.mk (load (for_sale_items db)) [] [] 0) (tracks_load _) Hall) as Hinv.
  simpl in Hinv. lia.
Qed.

Lemma buy_proceeds_match_with_sellers_witness :
  Forall (line_has_seller (for_sale_items (Sample.market 5 "steam_sam")))
         [Sample.line 3]
  ∧ buy_proceeds_match (Sample.market 5 "steam_sam")
      (BuyRequest.mk [Sample.line 3] 100) Sample.alice 7.
Proof.
  assert (Forall (line_has_seller (for_sale_items (Sample.market 5 "steam_sam")))
                 [Sample.line 3]) as H.
  { apply Forall_singleton. intros item. vm_compute. by intros [= <-]. }
  split; [exact H|].
  exact (buy_proceeds_match_with_sellers (Sample.market 5 "steam_sam")
           (BuyRequest.mk [Sample.line 3] 100) Sample.alice 7 H).
Defined.

(** ** The first loop: rejection of the whole batch *)

Lemma validate_purchases_ok rows pre rest acc :
  Forall (line_ok rows) pre →
  validate_purchases rows (pre ++ rest) acc
  = validate_purchases rows rest (acc + required_cost rows pre).
Proof.
  revert acc. induction pre as [|r pre IH]; intros acc Hok; simpl.
  - f_equal. lia.
  - apply Forall_cons in Hok as [(item & Hres & Hq) Hok].
    rewrite Hres. unfold resolve in Hres.
    destruct (matching_items rows r) as [|item' matches]; [done|].
    injection Hres as ->. rewrite decide_False by lia.
    rewrite IH by done. f_equal. lia.
Qed.

Lemma validate_purchases_all_ok rows reqs :
  Forall (line_ok rows) reqs →
  validate_purchases rows reqs 0 = Returned (required_cost rows reqs).
Proof.
  intros Hok. rewrite <- (app_nil_r reqs) at 1.
  by rewrite validate_purchases_ok.
Qed.

Lemma validate_purchases_missing rows pre r post :
  Forall (line_ok rows) pre → line_missing rows r →
  validate_purchases rows (pre ++ r :: post) 0
  = Raised (ItemUnavailable (BuyItemRequest.def_name r)
                            (BuyItemRequest.seller_name r)).
Proof.
  intros Hok Hmiss. rewrite validate_purchases_ok by done. simpl.
  unfold line_missing, resolve in Hmiss.
  by destruct (matching_items rows r).
Qed.

Lemma validate_purchases_short rows pre r post item :
  Forall (line_ok rows) pre → resolve rows r = Some item →
  BuyItemRequest.quantity r > ForSaleItem.quantity item →
  validate_purchases rows (pre ++ r :: post) 0
  = Raised (InsufficientStock (ForSaleItem.def_name item)
              (BuyItemRequest.quantity r) (ForSaleItem.quantity item)).
Proof.
  intros Hok Hres Hq. rewrite validate_purchases_ok by done. simpl.
  unfold resolve in Hres.
  destruct (matching_items rows r) as [|item' matches]; [done|].
  injection Hres as ->. by rewrite decide_True.
Qed.

Lemma line_verdict rows r :
  line_ok rows r ∨ line_missing rows r ∨ line_short rows r.
Proof.
  unfold line_ok, line_missing, line_short.
  destruct (resolve rows r) as [item|]; [|by right; left].
  destruct (decide (BuyItemRequest.quantity r ≤ ForSaleItem.quantity item)).
  - left. eauto.
  - right. right. exists item. split; [done|lia].
Qed.

(** The lines before the first one that fails all pass. *)
Lemma first_failing_line rows reqs :
  Exists (λ r, line_missing rows r ∨ line_short rows r) reqs →
  ∃ pre r post, reqs = pre ++ r :: post ∧ Forall (line_ok rows) pre
                ∧ (line_missing rows r ∨ line_short rows r).
Proof.
  induction reqs as [|r reqs IH]; intros Hex; [by apply Exists_nil in Hex|].
  destruct (line_verdict rows r) as [Hok|Hbad].
  - apply Exists_cons in Hex as [Hbad|Hex].
    + exists [], r, reqs. by repeat split.
    + destruct (IH Hex) as (pre & r' & post & -> & Hpre & Hr').
      exists (r :: pre), r', post. split; [done|]. split; [|done].
      by apply Forall_cons.
  - exists [], r, reqs. by repeat split.
Qed.

(** C5: the first loop rejects the whole batch at the first line that does
    not resolve ([ItemUnavailable]) or asks for more than is listed
    ([InsufficientStock]); so a batch with any such line is rejected; a batch
    whose lines all pass is rejected with [InsufficientFunds] when the
    accumulated cost exceeds [client_silver]; and a rejected buy leaves the
    listings, the escrow rows, the history and every other table as they
    were. *)
Theorem buy_validate_rejects db data user now :
  let rows := for_sale_items db in
  let reqs := BuyRequest.items data in
  (∀ pre r post,
     reqs = pre ++ r :: post → Forall (line_ok rows) pre → line_missing rows r →
     handle_buy db data user now
     = (Raised (ItemUnavailable (BuyItemRequest.def_name r)
                                (BuyItemRequest.seller_name r)), db))
  ∧ (∀ pre r post item,
       reqs = pre ++ r :: post → Forall (line_ok rows) pre →
       resolve rows r = Some item →
       BuyItemRequest.quantity r > ForSaleItem.quantity item →
       handle_buy db data user now
       = (Raised (InsufficientStock (ForSaleItem.def_name item)
                    (BuyItemRequest.quantity r) (ForSaleItem.quantity item)), db))
  ∧ (Exists (λ r, line_missing rows r ∨ line_short rows r) reqs →
     ∃ e, is_stock_rejection e ∧ handle_buy db data user now = (Raised e, db))
  ∧ (Forall (line_ok rows) reqs →
     BuyRequest.client_silver data < required_cost rows reqs →
     handle_buy db data user now
     = (Raised (InsufficientFunds (required_cost rows reqs)
                                  (BuyRequest.client_silver data)), db))
  ∧ (∀ e db', handle_buy db data user now = (Raised e, db') → db' = db).
Proof.
  intros rows reqs.
  assert (∀ pre r post, reqs = pre ++ r :: post → Forall (line_ok rows) pre →
            line_missing rows r →
            handle_buy db data user now
            = (Raised (ItemUnavailable (BuyItemRequest.def_name r)
                                       (BuyItemRequest.seller_name r)), db))
    as Hmissing.
  { intros pre r post Hreqs Hok Hmiss. unfold handle_buy. fold rows reqs.
    by rewrite Hreqs, validate_purchases_missing. }
  assert (∀ pre r post item, reqs = pre ++ r :: post →
            Forall (line_ok rows) pre → resolve rows r = Some item →
            BuyItemRequest.quantity r > ForSaleItem.quantity item →
            handle_buy db data user now
            = (Raised (InsufficientStock (ForSaleItem.def_name item)
                (BuyItemRequest.quantity r) (ForSaleItem.quantity item)), db))
    as Hshort.
  { intros pre r post item Hreqs Hok Hres Hq. unfold handle_buy. fold rows reqs.
    by rewrite Hreqs, (validate_purchases_short rows pre r post item). }
  split; [exact Hmissing|]. split; [exact Hshort|]. split; [|split].
  - intros Hex.
    destruct (first_failing_line rows reqs Hex)
      as (pre & r & post & Hreqs & Hok & [Hmiss|(item & Hres & Hq)]).
    + eexists. split; [|by eapply Hmissing]. done.
    + eexists. split; [|by eapply Hshort]. done.
  - intros Hok Hfunds. unfold handle_buy. fold rows reqs.
    rewrite validate_purchases_all_ok by done. by rewrite decide_True.
  - apply handle_buy_raised.
Qed.

Lemma buy_validate_rejects_witness :
  let db := Sample.market 5 "steam_sam" in
  handle_buy db (BuyRequest.mk [Sample.line 3; SampleLines.plasteel] 100)
    Sample.alice 7
  = (Raised (ItemUnavailable "plasteel" "sam"), db)
  ∧ handle_buy db (BuyRequest.mk [Sample.line 3; Sample.line 6] 100)
      Sample.alice 7
    = (Raised (InsufficientStock "ironKnife" 6 5), db)
  ∧ handle_buy db (BuyRequest.mk [Sample.line 3] 29) Sample.alice 7
    = (Raised (InsufficientFunds 30 29), db).
Proof.
  intros db.
  assert (Forall (line_ok (for_sale_items db)) [Sample.line 3]) as Hok.
  { apply Forall_singleton. exists (Sample.knife 5 "steam_sam").
    split; [reflexivity|]. vm_compute. discriminate. }
  split; [|split].
  - apply (proj1 (buy_validate_rejects db
             (BuyRequest.mk [Sample.line 3; SampleLines.plasteel] 100)
             Sample.alice 7) [Sample.line 3] SampleLines.plasteel []);
      [reflexivity|exact Hok|reflexivity].
  - apply (proj1 (proj2 (buy_validate_rejects db
             (BuyRequest.mk [Sample.line 3; Sample.line 6] 100)
             Sample.alice 7)) [Sample.line 3] (Sample.line 6) []
             (Sample.knife 5 "steam_sam"));
      [reflexivity|exact Hok|reflexivity|reflexivity].
  - apply (proj1 (proj2 (proj2 (proj2 (buy_validate_rejects db
             (BuyRequest.mk [Sample.line 3] 29) Sample.alice 7)))));
      [exact Hok|reflexivity].
Defined.

(** ** Listing quantities under [handle_buy] *)

(** C1 at its failing input: five knives listed, one batch with two lines of
    three knives each.  Each line passes the first loop on its own (3 <= 5);
    the second loop takes 3 off the object twice, and the commit stores the
    listing with quantity -1. *)
Theorem buy_repeated_line_negative_quantity :
  let out := handle_buy (Sample.market 5 "steam_sam")
               (BuyRequest.mk [Sample.line 3; Sample.line 3] 100)
               Sample.alice 7 in
  (∃ resp, out.1 = Returned resp ∧ BuyResponse.total_cost resp = 60)
  ∧ for_sale_items out.2 = [Sample.knife (-1) "steam_sam"].
Proof.
  split; [|reflexivity]. eexists. split; reflexivity.
Qed.

Lemma flush_not_deleted objs :
  Forall (λ o, deleted o = false) objs → flush objs = obj <$> objs.
Proof.
  intros H. unfold flush. f_equal.
  induction H as [|o objs Ho _ IH]; [done|].
  rewrite filter_cons, decide_True by done. by rewrite IH.
Qed.

Lemma load_obj rows : obj <$> load rows = rows.
Proof.
  unfold load. rewrite <- list_fmap_compose. apply list_fmap_id.
Qed.

Lemma load_not_deleted rows : Forall (λ o, deleted o = false) (load rows).
Proof. unfold load. apply Forall_fmap, Forall_forall. done. Qed.

Lemma first_match_load rows r :
  first_match (load rows) r
  = prod_map id (λ row, mkLoaded row false) <$> list_find (is_match r) rows.
Proof. unfold first_match, load. by rewrite list_find_fmap. Qed.

Lemma list_find_resolve rows r i item :
  list_find (is_match r) rows = Some (i, item) → resolve rows r = Some item.
Proof.
  intros H. unfold resolve, matching_items.
  by rewrite head_filter_list_find, H.
Qed.

(** A single line that passes the first loop and is not a full consumption:
    the stored quantity goes down by the requested quantity, whatever its
    sign. *)
Lemma handle_buy_single_line db r silver user now i item :
  list_find (is_match r) (for_sale_items db) = Some (i, item) →
  BuyItemRequest.quantity r < ForSaleItem.quantity item →
  ForSaleItem.price item * BuyItemRequest.quantity r ≤ silver →
  has_seller item →
  let quantity := BuyItemRequest.quantity r in
  let item_cost := ForSaleItem.price item * quantity in
  let details :=
    [ItemDetails.mk (ForSaleItem.def_name item) quantity (ForSaleItem.price item)
       (ForSaleItem.player_name item) (ForSaleItem.quality item)
       (Some (ForSaleItem.seller_steam_id item))
       (Some (ForSaleItem.player_name item))] in
  handle_buy db (BuyRequest.mk [r] silver) user now
  = (Returned (BuyResponse.mk details item_cost),
     mkDatabase
       (<[i := ForSaleItem.sub_quantity item quantity]> (for_sale_items db))
       (sales_history db
          ++ [SaleHistory.mk now (Some (Payload.steam_id user))
                (Some (Payload.player_name user)) details item_cost None None])
       (pending_sales db
          ++ [PendingSale.mk (ForSaleItem.seller_steam_id item)
                (Payload.player_name user) (ForSaleItem.def_name item) quantity
                (ForSaleItem.price item) item_cost now])
       (active_users db) (active_tokens db) (user_sessions db)).
Proof.
  intros Hfind Hq Hsilver Hseller. simpl.
  pose proof (list_find_resolve _ _ _ _ Hfind) as Hres.
  unfold handle_buy. simpl. unfold resolve in Hres.
  destruct (matching_items (for_sale_items db) r) as [|item' matches] eqn:Hm;
    [done|]. injection Hres as ->.
  rewrite decide_False by lia. rewrite decide_False by lia.
  unfold process_purchase. simpl. rewrite first_match_load, Hfind. simpl.
  rewrite decide_False by lia. unfold has_seller in Hseller. rewrite Hseller.
  simpl. rewrite flush_not_deleted.
  - by rewrite list_fmap_insert, load_obj.
  - apply Forall_insert; [apply load_not_deleted|done].
Qed.

(** C10: a line whose quantity is zero or negative passes both loops.  With
    the line resolving to [item] (at least one unit listed, seller known) and
    the asserted silver covering [price * quantity], the buy succeeds, takes
    [quantity] off the listing, which adds the absolute value back, and
    appends an escrow row for [quantity] units and [price * quantity] silver:
    zero units and zero proceeds for a zero line, and a negative total cost
    for a negative line at a positive price. *)
Theorem buy_accepts_nonpositive_quantity db r silver user now i item :
  list_find (is_match r) (for_sale_items db) = Some (i, item) →
  1 ≤ ForSaleItem.quantity item →
  has_seller item →
  BuyItemRequest.quantity r ≤ 0 →
  ForSaleItem.price item * BuyItemRequest.quantity r ≤ silver →
  ∃ resp db' item' sale,
    handle_buy db (BuyRequest.mk [r] silver) user now = (Returned resp, db')
    ∧ for_sale_items db' = <[i := item']> (for_sale_items db)
    ∧ same_listing item item'
    ∧ ForSaleItem.quantity item'
      = ForSaleItem.quantity item + Z.abs (BuyItemRequest.quantity r)
    ∧ pending_sales db' = pending_sales db ++ [sale]
    ∧ PendingSale.quantity sale = BuyItemRequest.quantity r
    ∧ PendingSale.total_silver sale
      = ForSaleItem.price item * BuyItemRequest.quantity r
    ∧ BuyResponse.total_cost resp
      = ForSaleItem.price item * BuyItemRequest.quantity r
    ∧ (BuyItemRequest.quantity r = 0 →
       for_sale_items db' = for_sale_items db
       ∧ PendingSale.quantity sale = 0 ∧ PendingSale.total_silver sale = 0)
    ∧ (BuyItemRequest.quantity r < 0 → 0 < ForSaleItem.price item →
       ForSaleItem.quantity item < ForSaleItem.quantity item'
       ∧ BuyResponse.total_cost resp < 0).
Proof.
  intros Hfind Hstock Hseller Hq Hsilver.
  eexists _, _, (ForSaleItem.sub_quantity item (BuyItemRequest.quantity r)), _.
  split.
  { apply (handle_buy_single_line db r silver user now i item); auto. lia. }
  simpl. split_and!; auto using same_listing_sub, same_listing_refl; try lia.
  - intros Hzero. rewrite Hzero. split_and!; simpl; try lia.
    replace (ForSaleItem.sub_quantity item 0) with item.
    + apply list_find_Some in Hfind as (Hi & _). by apply list_insert_id.
    + destruct item. unfold ForSaleItem.sub_quantity. simpl. f_equal. lia.
Qed.

Lemma buy_accepts_nonpositive_quantity_witness :
  let db := Sample.market 5 "steam_sam" in
  (∃ resp db',
     handle_buy db (BuyRequest.mk [Sample.line 0] 0) Sample.alice 7
     = (Returned resp, db')
     ∧ for_sale_items db' = for_sale_items db
     ∧ BuyResponse.total_cost resp = 0)
  ∧ (∃ resp db',
       handle_buy db (BuyRequest.mk [Sample.line (-2)] 0) Sample.alice 7
       = (Returned resp, db')
       ∧ for_sale_items db' = [Sample.knife 7 "steam_sam"]
       ∧ BuyResponse.total_cost resp = -20).
Proof.
  intros db.
  assert (list_find (is_match (Sample.line 0)) (for_sale_items db)
          = Some (0%nat, Sample.knife 5 "steam_sam")) as H0 by reflexivity.
  assert (list_find (is_match (Sample.line (-2))) (for_sale_items db)
          = Some (0%nat, Sample.knife 5 "steam_sam")) as H2 by reflexivity.
  assert (1 ≤ ForSaleItem.quantity (Sample.knife 5 "steam_sam")) as Hstock
    by (vm_compute; discriminate).
  assert (has_seller (Sample.knife 5 "steam_sam")) as Hseller by reflexivity.
  split.
  - destruct (buy_accepts_nonpositive_quantity db (Sample.line 0) 0
                Sample.alice 7 0%nat _ H0 Hstock Hseller)
      as (resp & db' & item' & sale & Hbuy & _ & _ & _ & _ & _ & _ & Hcost & Hz & _);
      [vm_compute; discriminate|vm_compute; discriminate|].
    exists resp, db'. split; [exact Hbuy|]. split; [apply Hz; reflexivity|].
    exact Hcost.
  - destruct (buy_accepts_nonpositive_quantity db (Sample.line (-2)) 0
                Sample.alice 7 0%nat _ H2 Hstock Hseller)
      as (resp & db' & item' & sale & Hbuy & Hrows & _ & _ & _ & _ & _ & Hcost & _);
      [vm_compute; discriminate|vm_compute; discriminate|].
    exists resp, db'. split; [exact Hbuy|].
    vm_compute in Hbuy. injection Hbuy as <- <-. split; reflexivity.
Defined.

(** ** Where C1 does hold: batches without a repeated listing *)

Lemma validate_purchases_returned rows reqs acc total :
  validate_purchases rows reqs acc = Returned total → Forall (line_ok rows) reqs.
Proof.
  revert acc. induction reqs as [|r reqs IH]; intros acc; [by constructor|].
  simpl. destruct (matching_items rows r) as [|item matches] eqn:Hm; [done|].
  case_decide as Hq; [done|]. intros Hrest. apply Forall_cons. split.
  - exists item. unfold resolve. rewrite Hm. split; [done|lia].
  - by eapply IH.
Qed.

(** What one iteration does to the loaded objects. *)
Lemma process_purchase_loaded buyer now st r :
  BuyState.loaded (process_purchase buyer now st r)
  = match first_match (BuyState.loaded st) r with
    | None => BuyState.loaded st
    | Some (i, o) =>
        <[i := if decide (BuyItemRequest.quantity r = ForSaleItem.quantity (obj o))
               then mkLoaded (obj o) true
               else mkLoaded (ForSaleItem.sub_quantity (obj o)
                                (BuyItemRequest.quantity r)) (deleted o)]>
          (BuyState.loaded st)
    end.
Proof.
  unfold process_purchase.
  destruct (first_match (BuyState.loaded st) r) as [[i o]|]; [|done].
  simpl. by case_decide.
Qed.

Lemma first_match_position rows objs r i o :
  tracks rows objs → first_match objs r = Some (i, o) →
  line_position rows r = Some i.
Proof.
  intros Ht Hf. pose proof (first_match_tracks rows objs r Ht) as H.
  rewrite Hf in H. destruct H as (item & Hfind & _).
  unfold line_position. by rewrite Hfind.
Qed.

Lemma process_purchases_positive rows buyer now reqs st :
  tracks rows (BuyState.loaded st) →
  Forall (line_ok rows) reqs →
  NoDup (line_position rows <$> reqs) →
  (∀ i o, BuyState.loaded st !! i = Some o →
          deleted o = true ∨ 1 ≤ ForSaleItem.quantity (obj o)) →
  (∀ r i o, r ∈ reqs → line_position rows r = Some i →
            BuyState.loaded st !! i = Some o → rows !! i = Some (obj o)) →
  ∀ i o, BuyState.loaded (process_purchases buyer now reqs st) !! i = Some o →
         deleted o = true ∨ 1 ≤ ForSaleItem.quantity (obj o).
Proof.
  revert st. induction reqs as [|r reqs IH];
    intros st Ht Hok Hnodup Hpos Hfresh; [done|].
  apply Forall_cons in Hok as [(item & Hres & Hq) Hok].
  rewrite fmap_cons in Hnodup. apply NoDup_cons in Hnodup as [Hnotin Hnodup].
  unfold process_purchases. simpl.
  apply IH; auto using process_purchase_tracks.
  - (* the objects stay positive *)
    intros j o'. rewrite process_purchase_loaded.
    destruct (first_match (BuyState.loaded st) r) as [[i o]|] eqn:Hfind;
      [|apply Hpos].
    destruct (first_match_resolve _ _ _ _ _ Ht Hfind)
      as (item' & Hres' & Hrow & Hobj & _).
    assert (item' = item) as -> by congruence.
    assert (obj o = item) as Hsame.
    { pose proof (Hfresh r i o (list_elem_of_here _ _)
                    (first_match_position _ _ _ _ _ Ht Hfind) Hobj). congruence. }
    destruct (decide (j = i)) as [->|Hne].
    + rewrite list_lookup_insert_eq by (by eapply lookup_lt_Some).
      intros [= <-]. case_decide as Hall; simpl; [by left|].
      right. rewrite Hsame in *. lia.
    + rewrite list_lookup_insert_ne by done. apply Hpos.
  - (* the listings of the remaining lines are still untouched *)
    intros r' j o' Hr' Hj. rewrite process_purchase_loaded.
    destruct (first_match (BuyState.loaded st) r) as [[i o]|] eqn:Hfind.
    + assert (j ≠ i) as Hne.
      { intros ->. apply Hnotin.
        rewrite (first_match_position _ _ _ _ _ Ht Hfind), <- Hj.
        by apply list_elem_of_fmap_2. }
      rewrite list_lookup_insert_ne by done.
      apply (Hfresh r'); [by apply list_elem_of_further|done].
    + apply (Hfresh r'); [by apply list_elem_of_further|done].
Qed.

(** X17: With at least one unit in every listing before, and no two lines of the
    batch resolving to one listing, every listing left after a successful buy
    has at least one unit: a full consumption deletes the row. *)
Lemma handle_buy_distinct_lines_positive db data user now resp db' :
  quantities_positive (for_sale_items db) →
  NoDup (line_position (for_sale_items db) <$> BuyRequest.items data) →
  handle_buy db data user now = (Returned resp, db') →
  quantities_positive (for_sale_items db').
Proof.
  intros Hpos Hnodup. unfold handle_buy.
  destruct (validate_purchases _ _ _) as [required|] eqn:Hval; [|done].
  apply validate_purchases_returned in Hval.
  case_decide; [done|]. intros [= _ <-]. simpl.
  pose proof (process_purchases_positive (for_sale_items db)
    (Payload.player_name user) now (BuyRequest.items data)
    (BuyState.mk (load (for_sale_items db)) [] [] 0)
    (tracks_load _) Hval Hnodup) as Hinv. simpl in Hinv.
  unfold quantities_positive, flush. apply Forall_fmap, Forall_forall.
  intros o [Hlive Ho]%list_elem_of_filter.
  apply list_elem_of_lookup in Ho as [i Ho].
  destruct (Hinv) with (i := i) (o := o) as [Hdel|Hq]; try done.
  - intros j o'. unfold load. rewrite list_lookup_fmap.
    destruct (for_sale_items db !! j) as [row|] eqn:Hrow; [|done].
    intros [= <-]. right. simpl.
    by eapply (Forall_lookup_1 _ _ _ _ Hpos Hrow).
  - intros r j o' _ _. unfold load. rewrite list_lookup_fmap.
    destruct (for_sale_items db !! j) as [row|]; [|done]. by intros [= <-].
  - congruence.
Qed.

(** ** Two scenarios

    Five knives at 10 silver: a first buyer takes three, which leaves two,
    30 silver in escrow and a history record of 30; a second buyer who asks
    for three is then turned down, two being available. *)
Example scenario_three_of_five :
  let out := handle_buy (Sample.market 5 "steam_sam")
               (BuyRequest.mk [Sample.line 3] 100) Sample.alice 7 in
  for_sale_items out.2 = [Sample.knife 2 "steam_sam"]
  ∧ total_proceeds (pending_sales out.2) = 30
  ∧ SaleHistory.total_cost <$> sales_history out.2 = [30]
  ∧ (handle_buy out.2 (BuyRequest.mk [Sample.line 3] 100) Sample.sam 8).1
    = Raised (InsufficientStock "ironKnife" 3 2).
Proof. by vm_compute. Qed.

(** One knife: the buyer of the last unit deletes the listing, and the next
    buyer finds nothing. *)
Example scenario_last_unit :
  let out := handle_buy (Sample.market 1 "steam_sam")
               (BuyRequest.mk [Sample.line 1] 100) Sample.alice 7 in
  for_sale_items out.2 = []
  ∧ (handle_buy out.2 (BuyRequest.mk [Sample.line 1] 100) Sample.sam 8).1
    = Raised (ItemUnavailable "ironKnife" "sam").
Proof. by vm_compute. Qed.

(** ** Token validation *)

(** C3: a token whose stored row is revoked is rejected, and the store is
    left as it was.  The statement holds for every verifier [jwt_claims]: the
    row is read first and the signature and the [exp] claim are never
    consulted, so it holds as well when the signature is good and the token
    has not expired. *)
Theorem revoked_token_rejected (jwt_claims : string → option Payload.t)
    db token now row :
  active_tokens db !! token = Some row →
  ActiveToken.revoked row = 1 →
  verify_jwt_token jwt_claims db token now
  = ((None, "Token has been revoked"), db).
Proof.
  intros Hrow Hrev. unfold verify_jwt_token.
  rewrite Hrow. by rewrite decide_True.
Qed.

Lemma revoked_token_rejected_witness :
  jwt_decode SampleTokens.claims "tok-sam" 10 = inr Sample.sam
  ∧ verify_jwt_token SampleTokens.claims SampleTokens.db "tok-sam" 10
    = ((None, "Token has been revoked"), SampleTokens.db).
Proof.
  split; [reflexivity|].
  apply (revoked_token_rejected SampleTokens.claims SampleTokens.db "tok-sam" 10
           (SampleTokens.row "steam_sam" "sam" 1)); reflexivity.
Defined.

(** X7: [logout] leaves the token revoked: from then on it is rejected at any
    time and under any verifier. *)
Lemma logout_token_rejected (jwt_claims : string → option Payload.t)
    db token user now now' :
  let db' := logout db token user now in
  verify_jwt_token jwt_claims db' token now'
  = ((None, "Token has been revoked"), db').
Proof.
  unfold logout, verify_jwt_token. simpl. rewrite lookup_alter_eq.
  by destruct (active_tokens db !! token) as [row|].
Qed.

(** C8, as stated, fails: "tok-ghost" has no row, the row of "tok-sam" is
    revoked, and both are rejected with "Token has been revoked". *)
Lemma unknown_token_reported_revoked :
  ¬ unknown_distinct_from_revoked SampleTokens.claims SampleTokens.db
      "tok-ghost" "tok-sam" 10.
Proof. intros H. by apply H. Qed.

(** C8 (amended): [verify_jwt_token] rejects with exactly one of three
    reasons, "Token has been revoked", "Token has expired" and "Invalid
    token", and accepts with "Valid"; a token without a row and a token with a
    revoked row are both rejected as revoked; a token with a live row is
    rejected as invalid when its signature or structure is bad and as expired
    when its [exp] claim has passed. *)
Theorem verify_reject_reasons (jwt_claims : string → option Payload.t)
    db token now :
  let out := (verify_jwt_token jwt_claims db token now).1 in
  (out.1 = None → out.2 ∈ reject_messages)
  ∧ (is_Some out.1 → out.2 = "Valid")
  ∧ (active_tokens db !! token = None →
     out = (None, "Token has been revoked"))
  ∧ (∀ row, active_tokens db !! token = Some row → ActiveToken.revoked row = 1 →
     out = (None, "Token has been revoked"))
  ∧ (∀ row, active_tokens db !! token = Some row → ActiveToken.revoked row ≠ 1 →
     jwt_claims token = None → out = (None, "Invalid token"))
  ∧ (∀ row payload,
       active_tokens db !! token = Some row → ActiveToken.revoked row ≠ 1 →
       jwt_claims token = Some payload → Payload.exp payload ≤ now →
       out = (None, "Token has expired")).
Proof.
  unfold verify_jwt_token, jwt_decode, reject_messages. simpl.
  destruct (active_tokens db !! token) as [row|] eqn:Hrow; simpl;
    [destruct (decide (ActiveToken.revoked row = 1)) as [Hrev|Hrev]; simpl;
     [|destruct (jwt_claims token) as [payload|] eqn:Hclaims; simpl;
       [destruct (decide (Payload.exp payload ≤ now)) as [Hexp|Hexp]; simpl;
        [|destruct (decide (now < Payload.iat payload)) as [Hiat|Hiat]; simpl;
          [|destruct (truthy (Payload.steam_id payload)); simpl]]|]]|].
  all: split_and!; intros; simplify_eq/=; try done.
  all: try (by match goal with H : is_Some None |- _ => destruct H end).
  all: set_solver.
Qed.

Lemma verify_reject_reasons_witness :
  (verify_jwt_token SampleTokens.claims SampleTokens.db "tok-ghost" 10).1
  = (None, "Token has been revoked")
  ∧ (verify_jwt_token SampleTokens.claims SampleTokens.db "tok-alice" 86400).1
    = (None, "Token has expired").
Proof.
  split.
  - apply (proj1 (proj2 (proj2 (verify_reject_reasons SampleTokens.claims
             SampleTokens.db "tok-ghost" 10)))). reflexivity.
  - apply (proj2 (proj2 (proj2 (proj2 (proj2 (verify_reject_reasons
             SampleTokens.claims SampleTokens.db "tok-alice" 86400)))))
             (SampleTokens.row "steam_alice" "alice" 0) Sample.alice);
      [reflexivity|vm_compute; discriminate|reflexivity|vm_compute; discriminate].
Defined.

(** A token whose [steam_id] claim is empty is accepted, and [if steam_id:]
    skips the renewal: the stored expiry stays at 86400 instead of
    10 + 86400. *)
Lemma validation_without_identity_does_not_slide :
  ¬ validation_slides SampleTokens.claims SampleTokens.db "tok-anon" 10.
Proof.
  intros H. destruct (H _ _ _ eq_refl) as [Hexp _].
  vm_compute in Hexp. discriminate.
Qed.

Lemma verify_jwt_token_accepts (jwt_claims : string → option Payload.t)
    db token now payload message db' :
  verify_jwt_token jwt_claims db token now = ((Some payload, message), db') →
  ∃ row signed,
    active_tokens db !! token = Some row ∧ ActiveToken.revoked row ≠ 1
    ∧ jwt_claims token = Some signed
    ∧ Payload.iat signed ≤ now < Payload.exp signed
    ∧ Payload.steam_id payload = Payload.steam_id signed
    ∧ if truthy (Payload.steam_id signed) then
        payload = set_exp (now + JWT_EXPIRATION_HOURS * 3600) signed
        ∧ db' = mkDatabase (for_sale_items db) (sales_history db)
                  (pending_sales db)
                  (alter (set_last_seen now) (Payload.steam_id signed)
                         (active_users db))
                  (alter (ActiveTokenOps.set_expires_at
                            (now + JWT_EXPIRATION_HOURS * 3600)) token
                         (active_tokens db))
                  (user_sessions db)
      else payload = signed ∧ db' = db.
Proof.
  unfold verify_jwt_token, jwt_decode.
  destruct (active_tokens db !! token) as [row|]; [|done].
  destruct (decide (ActiveToken.revoked row = 1)); [done|].
  destruct (jwt_claims token) as [signed|]; [|done].
  destruct (decide (Payload.exp signed ≤ now)); [done|].
  destruct (decide (now < Payload.iat signed)); [done|].
  destruct (truthy (Payload.steam_id signed)) eqn:Hid.
  - intros [= <- <- <-]. exists row, signed. rewrite Hid.
    split_and!; auto; lia.
  - intros [= <- <- <-]. exists row, signed. rewrite Hid.
    split_and!; auto; lia.
Qed.

(** What the renewal writes: when [verify_jwt_token] accepts a token whose
    claims carry a non-empty identity, the [exp] claim signed into the token
    has not passed, the stored expiry of the token becomes [now] plus 24 hours
    and the presence record of that identity is last seen [now]; and in a
    store where no stored expiry is behind the signed one, a token whose
    stored expiry has passed is rejected and the store is left as it was. *)
Theorem validation_slides_for_identity (jwt_claims : string → option Payload.t)
    clock db token now :
  (∀ payload message db',
     verify_jwt_token jwt_claims db token now = ((Some payload, message), db') →
     truthy (Payload.steam_id payload) = true →
     (∃ signed, jwt_claims token = Some signed ∧ now < Payload.exp signed)
     ∧ ActiveToken.expires_at <$> active_tokens db' !! token
       = Some (now + 24 * 3600)
     ∧ active_users db' !! Payload.steam_id payload
       = set_last_seen now <$> active_users db !! Payload.steam_id payload
     ∧ Payload.exp payload = now + 24 * 3600)
  ∧ (token_inv jwt_claims clock (active_tokens db) →
     ∀ row, active_tokens db !! token = Some row →
            ActiveToken.expires_at row < now →
            ∃ message,
              verify_jwt_token jwt_claims db token now = ((None, message), db)).
Proof.
  split.
  - intros payload message db' Hverify Hid.
    apply verify_jwt_token_accepts in Hverify
      as (row & signed & Hrow & _ & Hclaims & Hexp & Hsid & Hdb).
    rewrite Hsid in *. rewrite Hid in Hdb. destruct Hdb as [-> ->]. simpl.
    split; [exists signed; split; [done|lia]|].
    split_and!; [|apply lookup_alter_eq|done].
    by rewrite lookup_alter_eq, Hrow.
  - intros Hinv row Hrow Hpast. unfold verify_jwt_token, jwt_decode.
    rewrite Hrow. destruct (decide (ActiveToken.revoked row = 1)); [eauto|].
    destruct (jwt_claims token) as [signed|] eqn:Hclaims; [|eauto].
    destruct (Hinv token row signed Hrow Hclaims) as [Hle _].
    rewrite decide_True by lia. eauto.
Qed.

Lemma sample_token_inv :
  token_inv SampleTokens.claims 0 (active_tokens SampleTokens.db).
Proof.
  intros token row payload Hrow Hclaims. unfold SampleTokens.claims in Hclaims.
  repeat case_decide; simplify_eq; vm_compute in Hrow; simplify_eq;
    by vm_compute.
Qed.

Lemma validation_slides_for_identity_witness :
  (∃ payload message db',
     verify_jwt_token SampleTokens.claims SampleTokens.db "tok-alice" 10
     = ((Some payload, message), db')
     ∧ ActiveToken.expires_at <$> active_tokens db' !! "tok-alice"
       = Some (10 + 24 * 3600)
     ∧ ActiveUser.last_seen <$> active_users db' !! "steam_alice" = Some 10)
  ∧ (∃ message,
       verify_jwt_token SampleTokens.claims SampleTokens.db "tok-alice" 86401
       = ((None, message), SampleTokens.db)).
Proof.
  split.
  - eexists _, _, _. split; [reflexivity|].
    destruct (proj1 (validation_slides_for_identity SampleTokens.claims 0
                       SampleTokens.db "tok-alice" 10) _ _ _ eq_refl eq_refl)
      as (_ & Hexp & Hseen & _).
    split; [exact Hexp|]. vm_compute. reflexivity.
  - apply (proj2 (validation_slides_for_identity SampleTokens.claims 0
                    SampleTokens.db "tok-alice" 86401) sample_token_inv
             (SampleTokens.row "steam_alice" "alice" 0));
      [reflexivity|vm_compute; reflexivity].
Defined.

(** What the renewal does not reach: an accepted validation leaves the token
    with the [exp] it was signed with, and from that time on every validation
    is rejected as expired, whatever expiry the renewals have stored. *)
Lemma renewal_keeps_signed_exp (jwt_claims : string → option Payload.t)
    db token now payload message db' now' :
  verify_jwt_token jwt_claims db token now = ((Some payload, message), db') →
  ∃ signed,
    jwt_claims token = Some signed
    ∧ (Payload.exp signed ≤ now' →
       verify_jwt_token jwt_claims db' token now'
       = ((None, "Token has expired"), db')).
Proof.
  intros Hverify.
  apply verify_jwt_token_accepts in Hverify
    as (row & signed & Hrow & Hrev & Hclaims & _ & _ & Hdb).
  exists signed. split; [done|]. intros Hpast.
  assert (∃ row', active_tokens db' !! token = Some row'
                  ∧ ActiveToken.revoked row' ≠ 1) as (row' & Hrow' & Hrev').
  { destruct (truthy (Payload.steam_id signed)); destruct Hdb as [_ ->].
    - eexists. cbn [active_tokens]. rewrite lookup_alter_eq, Hrow. by split.
    - eauto. }
  unfold verify_jwt_token, jwt_decode. rewrite Hrow'.
  rewrite decide_False by done. rewrite Hclaims. by rewrite decide_True.
Qed.

(** C4: the expiry that a validation extends is not the expiry that validation
    checks.  sam logs in at time 0 and is handed a token signed with [exp]
    86400.  The validation of that token at 82800, an hour before, is
    accepted: it returns claims with [exp] 169200, stores 169200 as the
    expiry of the token and 82800 as the time sam was last seen.  The next
    validation, at 90000, long before the extended expiry, is rejected with
    "Token has expired", and the stored expiry is 169200 still: [jwt.decode]
    checks the [exp] signed into the token, and no renewal changes the
    token. *)
Theorem renewed_token_expires_at_signed_exp :
  let login :=
    generate_jwt_token SampleJwt.jwt_encode (mkDatabase [] [] [] ∅ ∅ [])
      "steam_sam" "sam" None "uuid-1" 0 in
  let first :=
    verify_jwt_token SampleJwt.jwt_claims login.2 SampleRenewal.token 82800 in
  let second :=
    verify_jwt_token SampleJwt.jwt_claims first.2 SampleRenewal.token 90000 in
  login.1 = Returned SampleRenewal.token
  ∧ first.1 = (Some (Payload.mk "steam_sam" "sam" 169200 0 "uuid-1"), "Valid")
  ∧ ActiveToken.expires_at <$> active_tokens first.2 !! SampleRenewal.token
    = Some 169200
  ∧ ActiveUser.last_seen <$> active_users first.2 !! "steam_sam" = Some 82800
  ∧ second.1 = (None, "Token has expired")
  ∧ ActiveToken.expires_at <$> active_tokens second.2 !! SampleRenewal.token
    = Some 169200.
Proof. cbv zeta. split_and!; vm_compute; reflexivity. Qed.

(** ** Escrow: [handle_buy] writes it, [claim_sales] empties it *)

Lemma Forall_filter_keep {A} (P Q : A → Prop) `{!∀ x, Decision (Q x)}
    (l : list A) :
  Forall P l → Forall P (filter Q l).
Proof.
  rewrite !Forall_forall. intros Hall x Hx.
  apply list_elem_of_filter in Hx as [_ Hx]. auto.
Qed.

Lemma process_purchase_consistent buyer now st r :
  escrow_consistent (BuyState.added st) →
  escrow_consistent (BuyState.added (process_purchase buyer now st r)).
Proof.
  intros Hc. unfold process_purchase.
  destruct (first_match (BuyState.loaded st) r) as [[i o]|]; [|done]. simpl.
  destruct (truthy _); [|done].
  apply Forall_app. split; [done|]. by apply Forall_singleton.
Qed.

Lemma process_purchases_consistent buyer now reqs st :
  escrow_consistent (BuyState.added st) →
  escrow_consistent (BuyState.added (process_purchases buyer now reqs st)).
Proof.
  revert st. induction reqs as [|r reqs IH]; intros st Hst; [done|].
  apply IH. by apply process_purchase_consistent.
Qed.

Lemma handle_buy_consistent db data user now :
  escrow_consistent (pending_sales db) →
  escrow_consistent (pending_sales (handle_buy db data user now).2).
Proof.
  intros Hc. unfold handle_buy.
  destruct (validate_purchases _ _ _); [|done]. case_decide; [done|]. simpl.
  apply Forall_app. split; [done|].
  apply process_purchases_consistent. by apply Forall_nil.
Qed.

Lemma sum_price_quantity_proceeds sales :
  escrow_consistent sales → sum_price_quantity sales = total_proceeds sales.
Proof.
  induction 1 as [|sale sales Hs _ IH]; [done|]. simpl. rewrite IH, Hs. done.
Qed.

Lemma filter_seller_complement (sid : string) (sales : list PendingSale.t) :
  filter (λ sale, PendingSale.seller_steam_id sale = sid)
    (filter (λ sale, PendingSale.seller_steam_id sale ≠ sid) sales) = [].
Proof.
  induction sales as [|sale sales IH]; [done|].
  rewrite filter_cons. case_decide; [|done].
  rewrite filter_cons. by rewrite decide_False.
Qed.

Lemma filter_seller_none (sid : string) (sales : list PendingSale.t) :
  filter (λ sale, PendingSale.seller_steam_id sale = sid) sales = [] →
  filter (λ sale, PendingSale.seller_steam_id sale ≠ sid) sales = sales.
Proof.
  induction sales as [|sale sales IH]; [done|].
  rewrite !filter_cons. case_decide; [done|]. intros Hnone.
  rewrite decide_True by done. by rewrite IH.
Qed.

(** C6: [claim_sales] never raises; it returns the sum of the proceeds and the
    number of the seller's pending escrow rows and deletes exactly those rows,
    touching nothing else; without pending rows it returns (0, 0) and changes
    nothing; and a second claim right after returns (0, 0). *)
Theorem claim_sales_sums_and_deletes db user :
  escrow_consistent (pending_sales db) →
  let mine := get_pending_sales db user in
  let out := claim_sales db user in
  ClaimResponse.total_claimed out.1 = total_proceeds mine
  ∧ ClaimResponse.claimed_sales_count out.1 = Z.of_nat (length mine)
  ∧ pending_sales out.2
    = filter (λ sale, PendingSale.seller_steam_id sale ≠ Payload.steam_id user)
             (pending_sales db)
  ∧ get_pending_sales out.2 user = []
  ∧ (for_sale_items out.2 = for_sale_items db
     ∧ sales_history out.2 = sales_history db
     ∧ active_users out.2 = active_users db
     ∧ active_tokens out.2 = active_tokens db
     ∧ user_sessions out.2 = user_sessions db)
  ∧ (mine = [] → out = (ClaimResponse.mk 0 0, db))
  ∧ claim_sales out.2 user = (ClaimResponse.mk 0 0, out.2).
Proof.
  intros Hc. unfold claim_sales, get_pending_sales. simpl.
  destruct (filter _ (pending_sales db)) as [|sale mine] eqn:Hmine; simpl.
  - rewrite Hmine. split_and!; try done. by rewrite filter_seller_none.
  - rewrite filter_seller_complement. split_and!; try done.
    assert (escrow_consistent (sale :: mine)) as Hc'.
    { rewrite <- Hmine. by apply Forall_filter_keep. }
    exact (sum_price_quantity_proceeds (sale :: mine) Hc').
Qed.

Lemma claim_sales_sums_and_deletes_witness :
  (claim_sales SampleEscrow.db Sample.sam).1 = ClaimResponse.mk 35 2
  ∧ claim_sales (claim_sales SampleEscrow.db Sample.sam).2 Sample.sam
    = (ClaimResponse.mk 0 0,
       mkDatabase [] [] [SampleEscrow.sale "steam_bob" 1 7] ∅ ∅ []).
Proof.
  assert (escrow_consistent (pending_sales SampleEscrow.db)) as Hc.
  { unfold escrow_consistent. repeat constructor. }
  destruct (claim_sales_sums_and_deletes SampleEscrow.db Sample.sam Hc)
    as (Htotal & Hcount & _ & _ & _ & _ & Hagain).
  split; [|exact Hagain].
  destruct (claim_sales SampleEscrow.db Sample.sam).1 as [total count].
  simpl in Htotal, Hcount. rewrite Htotal, Hcount. reflexivity.
Defined.

(** ** The sweep *)

Lemma remove_inactive_users_users (us : list (string * ActiveUser.t))
    (users : gmap string ActiveUser.t) (tokens : gmap string ActiveToken.t)
    (sid : string) :
  (foldl remove_inactive_user (users, tokens) us).1 !! sid
  = if decide (sid ∈ us.*1) then None else users !! sid.
Proof.
  revert users tokens. induction us as [|[sid0 u0] us IH]; intros users tokens.
  - rewrite fmap_nil. cbn [foldl fst].
    destruct (decide (sid ∈ [])) as [Hin|]; [by apply elem_of_nil in Hin|done].
  - rewrite fmap_cons. cbn [foldl]. unfold remove_inactive_user at 2.
    cbn [fst snd]. rewrite IH.
    destruct (decide (sid ∈ us.*1)) as [Hin|Hin].
    + rewrite decide_True; [done|]. by apply list_elem_of_further.
    + destruct (decide (sid = sid0)) as [->|Hne].
      * rewrite decide_True by apply list_elem_of_here. apply lookup_delete_eq.
      * rewrite decide_False.
        -- by apply lookup_delete_ne.
        -- intros [?|?]%elem_of_cons; done.
Qed.

Lemma remove_inactive_users_tokens (us : list (string * ActiveUser.t))
    (users : gmap string ActiveUser.t) (tokens : gmap string ActiveToken.t)
    (token : string) (row : ActiveToken.t) :
  (foldl remove_inactive_user (users, tokens) us).2 !! token = Some row
  ↔ tokens !! token = Some row ∧ ActiveToken.steam_id row ∉ us.*1.
Proof.
  revert users tokens. induction us as [|[sid0 u0] us IH]; intros users tokens.
  - rewrite fmap_nil. cbn [foldl snd]. split; [|tauto].
    intros Hrow. split; [done|]. apply not_elem_of_nil.
  - rewrite fmap_cons. cbn [foldl]. unfold remove_inactive_user at 2.
    cbn [fst snd]. rewrite IH.
    rewrite map_lookup_filter_Some. cbn [fst snd]. rewrite not_elem_of_cons.
    tauto.
Qed.

Lemma inactive_users_list (users : gmap string ActiveUser.t) (threshold : Z)
    (sid : string) :
  sid ∈ (map_to_list
           (filter (λ kv, ActiveUser.last_seen kv.2 < threshold) users)).*1
  ↔ ∃ u, users !! sid = Some u ∧ ActiveUser.last_seen u < threshold.
Proof.
  rewrite list_elem_of_fmap. split.
  - intros ([sid' u] & -> & Hin). exists u.
    apply elem_of_map_to_list in Hin. by apply map_lookup_filter_Some in Hin.
  - intros (u & Hu & Hlt). exists (sid, u). split; [done|].
    apply elem_of_map_to_list. by apply map_lookup_filter_Some.
Qed.

(** C7: after one pass at [now], no token row has an expiry before [now], and
    a row that had one is gone; every session idle for more than 2 hours is
    inactive with its end set ([now] if the pass closed it); no presence
    record is idle for more than 24 hours, a record that was is gone, and no
    token row is owned by the identity of such a record. *)
Theorem cleanup_pass_sweeps db now :
  sessions_closed (user_sessions db) →
  let db' := (cleanup_pass db now).2 in
  (∀ token row, active_tokens db' !! token = Some row →
                ¬ ActiveToken.expires_at row < now)
  ∧ (∀ token row, active_tokens db !! token = Some row →
                  ActiveToken.expires_at row < now →
                  active_tokens db' !! token = None)
  ∧ (∀ i s, user_sessions db !! i = Some s →
            UserSession.last_activity s < now - 2 * 3600 →
            ∃ s', user_sessions db' !! i = Some s'
                  ∧ UserSession.is_active s' = false
                  ∧ is_Some (UserSession.session_end s')
                  ∧ (UserSession.is_active s = true →
                     UserSession.session_end s' = Some now))
  ∧ Forall (λ s', UserSession.last_activity s' < now - 2 * 3600 →
                  UserSession.is_active s' = false
                  ∧ is_Some (UserSession.session_end s')) (user_sessions db')
  ∧ (∀ sid u, active_users db' !! sid = Some u →
              ¬ ActiveUser.last_seen u < now - 24 * 3600)
  ∧ (∀ sid u, active_users db !! sid = Some u →
              ActiveUser.last_seen u < now - 24 * 3600 →
              active_users db' !! sid = None
              ∧ ∀ token row, active_tokens db' !! token = Some row →
                             ActiveToken.steam_id row ≠ sid).
Proof.
  intros Hclosed. unfold cleanup_pass. simpl.
  assert (∀ i s, user_sessions db !! i = Some s →
            UserSession.last_activity s < now - 2 * 3600 →
            ∃ s', ((λ s, if decide (UserSession.last_activity s < now - 2 * 3600
                                    ∧ UserSession.is_active s = true)
                         then end_session now s else s) <$> user_sessions db) !! i
                  = Some s'
                  ∧ UserSession.is_active s' = false
                  ∧ is_Some (UserSession.session_end s')
                  ∧ (UserSession.is_active s = true →
                     UserSession.session_end s' = Some now)) as Hsessions.
  { intros i s Hs Hidle. rewrite list_lookup_fmap, Hs. simpl.
    eexists. split; [done|].
    destruct (UserSession.is_active s) eqn:Hactive.
    - rewrite decide_True by done. simpl. eauto.
    - rewrite decide_False by (intros [_ ?]; done).
      split; [done|]. split; [|done].
      eapply (Forall_lookup_1 _ _ _ _ Hclosed Hs). done. }
  split_and!.
  - intros token row Hrow.
    apply remove_inactive_users_tokens in Hrow as [Hrow _].
    by apply map_lookup_filter_Some in Hrow as [_ ?].
  - intros token row Hrow Hpast.
    apply eq_None_not_Some. intros [row' Hrow'].
    apply remove_inactive_users_tokens in Hrow' as [Hrow' _].
    apply map_lookup_filter_Some in Hrow' as [Hrow' Hlive]. simpl in Hlive.
    by simplify_eq.
  - exact Hsessions.
  - apply Forall_fmap, Forall_forall. intros s Hs. simpl.
    apply list_elem_of_lookup in Hs as [i Hs].
    case_decide as Hcase; simpl.
    + eauto.
    + intros Hidle. destruct (UserSession.is_active s) eqn:Hactive.
      * destruct Hcase. done.
      * split; [done|]. eapply (Forall_lookup_1 _ _ _ _ Hclosed Hs). done.
  - intros sid u Hu Hidle. rewrite remove_inactive_users_users in Hu.
    case_decide as Hin; [done|]. apply Hin, inactive_users_list. eauto.
  - intros sid u Hu Hidle.
    assert (sid ∈ (map_to_list
              (filter (λ kv, ActiveUser.last_seen kv.2 < now - 24 * 3600)
                      (active_users db))).*1) as Hin
      by (apply inactive_users_list; eauto).
    split.
    + rewrite remove_inactive_users_users. by rewrite decide_True.
    + intros token row Hrow Hsid.
      apply remove_inactive_users_tokens in Hrow as [_ Hout].
      apply Hout. by rewrite Hsid.
Qed.

(** The administrative call and one turn of the background loop are the
    same pass. *)
Lemma cleanup_expired_tokens_one_pass db now :
  cleanup_expired_tokens db [now] = (manual_cleanup db now).2.
Proof. reflexivity. Qed.

Lemma cleanup_pass_sweeps_witness :
  let db' := (cleanup_pass SampleSweep.db 100000).2 in
  active_tokens db' !! "tok-old" = None
  ∧ active_users db' !! "steam_sam" = None
  ∧ (∀ token row, active_tokens db' !! token = Some row →
                  ActiveToken.steam_id row ≠ "steam_sam")
  ∧ ∃ s', user_sessions db' !! 0%nat = Some s'
          ∧ UserSession.is_active s' = false
          ∧ UserSession.session_end s' = Some 100000.
Proof.
  assert (sessions_closed (user_sessions SampleSweep.db)) as Hclosed.
  { unfold sessions_closed, SampleSweep.db. simpl.
    repeat (apply Forall_cons; split); try apply Forall_nil; simpl;
      intros; try discriminate; eauto. }
  destruct (cleanup_pass_sweeps SampleSweep.db 100000 Hclosed)
    as (_ & Hexpired & Hidle & _ & _ & Hgone).
  intros db'. split_and!.
  - apply (Hexpired "tok-old" (ActiveToken.mk "steam_alice" "alice" 0 5 0));
      [reflexivity|vm_compute; reflexivity].
  - apply (Hgone "steam_sam" (ActiveUser.mk "sam" 0));
      [reflexivity|vm_compute; reflexivity].
  - apply (Hgone "steam_sam" (ActiveUser.mk "sam" 0));
      [reflexivity|vm_compute; reflexivity].
  - destruct (Hidle 0%nat (SampleSweep.session 10 true None))
      as (s' & Hs' & Hactive & _ & Hend);
      [reflexivity|vm_compute; reflexivity|].
    exists s'. split_and!; [exact Hs'|exact Hactive|by apply Hend].
Defined.

(** ** [remove_item] *)

(** C9 at its failing inputs: sam owns the first and the third listing.
    Index -1 is not a position of his listings, yet [my_items[-1]] is his last
    one and the request deletes it; index -3 passes the bound check too and
    [my_items[-3]] raises [IndexError], not the "Invalid item index" of the
    check. *)
Theorem remove_item_negative_index :
  remove_item SampleListings.db (-1) Sample.sam
  = (Returned (Sample.knife 3 "steam_sam"),
     mkDatabase [Sample.knife 1 "steam_sam"; Sample.knife 2 "steam_bob"]
       [] [] ∅ ∅ [])
  ∧ remove_item SampleListings.db (-3) Sample.sam
    = (Raised IndexError, SampleListings.db).
Proof. split; reflexivity. Qed.

Lemma select_by_offset_lookup (P : ForSaleItem.t → Prop)
    `{!∀ x, Decision (P x)} (rows : list ForSaleItem.t) (k n p : nat)
    (item : ForSaleItem.t) :
  filter (λ q, P q.2) (imap (λ i row, ((k + i)%nat, row)) rows) !! n
    = Some (p, item) →
  ∃ l1 l2, rows = l1 ++ item :: l2 ∧ p = (k + length l1)%nat
           ∧ length (filter P l1) = n ∧ P item.
Proof.
  revert k n. induction rows as [|x rows IH]; intros k n; [done|].
  rewrite imap_cons.
  rewrite (imap_ext _ (λ i row, ((S k + i)%nat, row)) rows)
    by (intros; simpl; f_equal; lia).
  rewrite filter_cons. simpl. destruct (decide (P x)) as [Hx|Hx].
  - destruct n as [|n]; simpl.
    + intros [= <- <-]. exists [], rows. simpl. split_and!; auto with lia.
    + intros Hn. destruct (IH (S k) _ Hn) as (l1 & l2 & -> & -> & <- & Hitem).
      exists (x :: l1), l2. rewrite filter_cons, decide_True by done.
      simpl. split_and!; auto with lia.
  - intros Hn. destruct (IH (S k) _ Hn) as (l1 & l2 & -> & -> & <- & Hitem).
    exists (x :: l1), l2. rewrite filter_cons, decide_False by done.
    simpl. split_and!; auto with lia.
Qed.

(** For an index that is not negative [remove_item] does what C9 says: it
    deletes the listing at that position among the seller's own and nothing
    else, and it raises "Invalid item index", changing nothing, exactly when
    the seller has no listing at that position. *)
Lemma remove_item_nonnegative_index db index user :
  0 ≤ index →
  match remove_item db index user with
  | (Returned item, db') =>
      ∃ l1 l2,
        for_sale_items db = l1 ++ item :: l2
        ∧ ForSaleItem.seller_steam_id item = Payload.steam_id user
        ∧ Z.of_nat (length (filter (λ row, ForSaleItem.seller_steam_id row
                                           = Payload.steam_id user) l1)) = index
        ∧ db' = mkDatabase (l1 ++ l2) (sales_history db) (pending_sales db)
                  (active_users db) (active_tokens db) (user_sessions db)
  | (Raised e, db') =>
      e = InvalidIndex ∧ db' = db
      ∧ Z.of_nat (length (select_by_seller (for_sale_items db)
                            (Payload.steam_id user))) ≤ index
  end.
Proof.
  intros Hindex. unfold remove_item, py_index.
  case_decide as Hbound; [split_and!; auto; lia|].
  rewrite decide_True by done.
  destruct (_ !! Z.to_nat index) as [[pos item]|] eqn:Hlookup.
  - unfold select_by_seller in Hlookup.
    destruct (select_by_offset_lookup
                (λ row, ForSaleItem.seller_steam_id row = Payload.steam_id user)
                (for_sale_items db) 0 _ _ _ Hlookup)
      as (l1 & l2 & Hrows & -> & Hlen & Hitem).
    exists l1, l2. split_and!; auto; [lia|].
    rewrite Hrows. simpl. by rewrite delete_middle.
  - apply lookup_ge_None in Hlookup. lia.
Qed.

(** ** What every reachable store satisfies *)

Lemma token_inv_mono jwt_claims clock clock' tokens :
  clock ≤ clock' → token_inv jwt_claims clock tokens →
  token_inv jwt_claims clock' tokens.
Proof.
  intros Hle Hinv token row payload Hrow Hclaims.
  destruct (Hinv token row payload Hrow Hclaims). split; lia.
Qed.

Lemma token_inv_subset jwt_claims clock (tokens tokens' : gmap string ActiveToken.t) :
  (∀ token row, tokens' !! token = Some row → tokens !! token = Some row) →
  token_inv jwt_claims clock tokens → token_inv jwt_claims clock tokens'.
Proof. intros Hsub Hinv token row payload Hrow. by apply Hinv, Hsub. Qed.

Lemma token_inv_alter jwt_claims clock (tokens : gmap string ActiveToken.t)
    (f : ActiveToken.t → ActiveToken.t) token :
  (∀ row, ActiveToken.expires_at row ≤ ActiveToken.expires_at (f row)) →
  token_inv jwt_claims clock tokens →
  token_inv jwt_claims clock (alter f token tokens).
Proof.
  intros Hf Hinv token' row' payload Hrow Hclaims.
  destruct (decide (token = token')) as [<-|Hne].
  - rewrite lookup_alter_eq in Hrow.
    destruct (tokens !! token) as [row|] eqn:Hold; [|done].
    injection Hrow as <-.
    destruct (Hinv token row payload Hold Hclaims). specialize (Hf row).
    split; lia.
  - rewrite lookup_alter_ne in Hrow by done. by eapply Hinv.
Qed.

Lemma verify_jwt_token_rejects jwt_claims db token now message db' :
  verify_jwt_token jwt_claims db token now = ((None, message), db') → db' = db.
Proof.
  unfold verify_jwt_token, jwt_decode.
  destruct (active_tokens db !! token) as [row|]; [|by intros [= _ <-]].
  destruct (decide (ActiveToken.revoked row = 1)); [by intros [= _ <-]|].
  destruct (jwt_claims token) as [signed|]; [|by intros [= _ <-]].
  destruct (decide (Payload.exp signed ≤ now)); [by intros [= _ <-]|].
  destruct (decide (now < Payload.iat signed)); [by intros [= _ <-]|].
  by destruct (truthy (Payload.steam_id signed)).
Qed.

Lemma verify_jwt_token_inv jwt_claims clock db token now :
  clock ≤ now →
  token_inv jwt_claims clock (active_tokens db) →
  token_inv jwt_claims now
    (active_tokens (verify_jwt_token jwt_claims db token now).2).
Proof.
  intros Hle Hinv.
  destruct (verify_jwt_token jwt_claims db token now) as [[[payload|] message] db']
    eqn:Hverify; simpl.
  - apply verify_jwt_token_accepts in Hverify
      as (row & signed & Hrow & _ & Hclaims & Hexp & _ & Hdb).
    destruct (truthy (Payload.steam_id signed)); destruct Hdb as [_ ->];
      [|by eapply token_inv_mono].
    simpl. intros token' row' payload' Hrow' Hclaims'.
    destruct (decide (token = token')) as [<-|Hne].
    + rewrite lookup_alter_eq, Hrow in Hrow'. injection Hrow' as <-.
      destruct (Hinv token row payload' Hrow Hclaims'). simpl. split; lia.
    + rewrite lookup_alter_ne in Hrow' by done.
      destruct (Hinv token' row' payload' Hrow' Hclaims'). split; lia.
  - apply verify_jwt_token_rejects in Hverify as ->. by eapply token_inv_mono.
Qed.

Lemma verify_jwt_token_frame jwt_claims db token now :
  let db' := (verify_jwt_token jwt_claims db token now).2 in
  for_sale_items db' = for_sale_items db
  ∧ sales_history db' = sales_history db
  ∧ pending_sales db' = pending_sales db
  ∧ user_sessions db' = user_sessions db.
Proof.
  unfold verify_jwt_token, jwt_decode.
  destruct (active_tokens db !! token) as [row|]; [|done].
  destruct (decide (ActiveToken.revoked row = 1)); [done|].
  destruct (jwt_claims token) as [signed|]; [|done].
  destruct (decide (Payload.exp signed ≤ now)); [done|].
  destruct (decide (now < Payload.iat signed)); [done|].
  by destruct (truthy (Payload.steam_id signed)).
Qed.

Lemma generate_jwt_token_inv jwt_encode jwt_claims clock db steam_id player_name
    user_agent uuid4 now :
  (∀ payload, jwt_claims (jwt_encode payload) = Some payload) →
  clock ≤ now →
  token_inv jwt_claims clock (active_tokens db) →
  token_inv jwt_claims now
    (active_tokens (generate_jwt_token jwt_encode db steam_id player_name
                      user_agent uuid4 now).2).
Proof.
  intros Hround Hle Hinv. unfold generate_jwt_token.
  destruct (active_tokens db !! _) as [taken|] eqn:Htaken; simpl;
    [by eapply token_inv_mono|].
  intros token row payload Hrow Hclaims.
  apply lookup_insert_Some in Hrow as [[<- <-]|[_ Hrow]].
  - rewrite Hround in Hclaims. injection Hclaims as <-. simpl. lia.
  - destruct (Hinv token row payload Hrow Hclaims). split; lia.
Qed.

Lemma handle_buy_frame db data user now :
  let db' := (handle_buy db data user now).2 in
  active_users db' = active_users db
  ∧ active_tokens db' = active_tokens db
  ∧ user_sessions db' = user_sessions db.
Proof.
  unfold handle_buy. destruct (validate_purchases _ _ _); [|done].
  by case_decide.
Qed.

Lemma remove_item_frame db index user :
  let db' := (remove_item db index user).2 in
  pending_sales db' = pending_sales db
  ∧ active_tokens db' = active_tokens db
  ∧ user_sessions db' = user_sessions db.
Proof.
  unfold remove_item. case_decide; [done|].
  by destruct (py_index _ _) as [[pos item]|].
Qed.

Lemma claim_sales_frame db user :
  let db' := (claim_sales db user).2 in
  active_tokens db' = active_tokens db ∧ user_sessions db' = user_sessions db.
Proof. unfold claim_sales. by destruct (filter _ _). Qed.

Lemma claim_sales_consistent db user :
  escrow_consistent (pending_sales db) →
  escrow_consistent (pending_sales (claim_sales db user).2).
Proof.
  intros Hc. unfold claim_sales. destruct (filter _ _) eqn:Hmine; [done|].
  simpl. by apply Forall_filter_keep.
Qed.

Lemma cleanup_pass_token_inv jwt_claims clock db now :
  token_inv jwt_claims clock (active_tokens db) →
  token_inv jwt_claims clock (active_tokens (cleanup_pass db now).2).
Proof.
  apply token_inv_subset. unfold cleanup_pass. simpl. intros token row Hrow.
  apply remove_inactive_users_tokens in Hrow as [Hrow _].
  by apply map_lookup_filter_Some in Hrow as [? _].
Qed.

Lemma end_sessions_closed (P : UserSession.t → Prop) `{!∀ s, Decision (P s)}
    now sessions :
  sessions_closed sessions →
  sessions_closed ((λ s, if decide (P s) then end_session now s else s) <$> sessions).
Proof.
  unfold sessions_closed. intros Hc. apply Forall_fmap.
  eapply Forall_impl; [exact Hc|]. intros s Hs. simpl.
  case_decide; [simpl; eauto|done].
Qed.

Lemma cleanup_pass_closed db now :
  sessions_closed (user_sessions db) →
  sessions_closed (user_sessions (cleanup_pass db now).2).
Proof. intros Hc. unfold cleanup_pass. simpl. by apply end_sessions_closed. Qed.

Lemma logout_closed db token user now :
  sessions_closed (user_sessions db) →
  sessions_closed (user_sessions (logout db token user now)).
Proof. intros Hc. unfold logout. simpl. by apply end_sessions_closed. Qed.

Lemma generate_jwt_token_closed jwt_encode db steam_id player_name user_agent
    uuid4 now :
  sessions_closed (user_sessions db) →
  sessions_closed
    (user_sessions (generate_jwt_token jwt_encode db steam_id player_name
                      user_agent uuid4 now).2).
Proof.
  intros Hc. unfold generate_jwt_token.
  destruct (active_tokens db !! _); [done|]. simpl.
  apply Forall_app. split; [done|]. by apply Forall_singleton.
Qed.

Lemma handle_trade_frame db records user now :
  let db' := (handle_trade db records user now).2 in
  pending_sales db' = pending_sales db
  ∧ active_users db' = active_users db
  ∧ active_tokens db' = active_tokens db
  ∧ user_sessions db' = user_sessions db.
Proof.
  unfold handle_trade.
  by destruct (list_records _ _ _ _ _) as [[newly_listed_items|e] rows].
Qed.

(** X23: Every store the server reaches, under a [jwt] library that reads back
    the claims it signed, satisfies the three conditions the statements about
    validation, claiming and sweeping are made under. *)
Lemma reachable_invariants jwt_encode jwt_claims clock db :
  (∀ payload, jwt_claims (jwt_encode payload) = Some payload) →
  reachable jwt_encode jwt_claims clock db →
  token_inv jwt_claims clock (active_tokens db)
  ∧ sessions_closed (user_sessions db)
  ∧ escrow_consistent (pending_sales db).
Proof.
  intros Hround. induction 1 as [clock|clock db req now _ IH Hle].
  { split_and!; [done|by apply Forall_nil..]. }
  destruct IH as (Htok & Hses & Hesc).
  destruct req as [steam_id player_name user_agent uuid4|token action|]; simpl.
  - split_and!.
    + by eapply generate_jwt_token_inv.
    + by apply generate_jwt_token_closed.
    + unfold generate_jwt_token. by destruct (active_tokens db !! _).
  - pose proof (verify_jwt_token_inv jwt_claims clock db token now Hle Htok) as Htok1.
    destruct (verify_jwt_token_frame jwt_claims db token now) as (_ & _ & Hp & Hs).
    destruct (verify_jwt_token jwt_claims db token now) as [[[user|] message] db1];
      simpl in *; rewrite <- Hp in Hesc; rewrite <- Hs in Hses;
      [|done].
    destruct action as [| |data|records|index| |].
    + done.
    + split_and!; [|by apply logout_closed|done].
      unfold logout. simpl. apply token_inv_alter; [|done]. by intros [].
    + destruct (handle_buy_frame db1 data user now) as (_ & -> & ->).
      split_and!; [done..|]. by apply handle_buy_consistent.
    + destruct (handle_trade_frame db1 records user now) as (-> & _ & -> & ->).
      done.
    + destruct (remove_item_frame db1 index user) as (-> & -> & ->). done.
    + destruct (claim_sales_frame db1 user) as (-> & ->).
      split_and!; [done..|]. by apply claim_sales_consistent.
    + split_and!; [|by apply cleanup_pass_closed|done].
      by apply cleanup_pass_token_inv.
  - split_and!; [|by apply cleanup_pass_closed|done].
    eapply token_inv_mono; [exact Hle|]. by apply cleanup_pass_token_inv.
Qed.

Lemma sample_jwt_reads_back payload :
  SampleJwt.jwt_claims (SampleJwt.jwt_encode payload) = Some payload.
Proof.
  unfold SampleJwt.jwt_claims, SampleJwt.jwt_encode.
  assert (∀ p, SampleJwt.unbits (SampleJwt.bits p) = p) as ->.
  { induction p as [p IH|p IH|]; simpl; by rewrite ?IH. }
  rewrite decode_encode. by destruct payload.
Qed.

(** A login, a validation an hour later and a sweep two days later, under
    the sample encoder: the store reached satisfies the three conditions. *)
Example reachable_sample :
  let db :=
    serve SampleJwt.jwt_encode SampleJwt.jwt_claims
      (serve SampleJwt.jwt_encode SampleJwt.jwt_claims
         (serve SampleJwt.jwt_encode SampleJwt.jwt_claims
            (mkDatabase [] [] [] ∅ ∅ [])
            (Login "steam_sam" "sam" None "uuid-1") 0)
         (Authenticated
            (SampleJwt.jwt_encode
               (Payload.mk "steam_sam" "sam" 86400 0 "uuid-1")) ValidateToken)
         3600)
      BackgroundCleanup 172800 in
  token_inv SampleJwt.jwt_claims 172800 (active_tokens db)
  ∧ sessions_closed (user_sessions db)
  ∧ escrow_consistent (pending_sales db).
Proof.
  apply (reachable_invariants SampleJwt.jwt_encode SampleJwt.jwt_claims);
    [exact sample_jwt_reads_back|].
  apply (reachable_serve _ _ 3600); [|done].
  apply (reachable_serve _ _ 0); [|done].
  apply (reachable_serve _ _ 0); [|done].
  apply reachable_empty.
Defined.

(** ** The empty identity on reachable stores

    The two guards [if item.seller_steam_id:] and [if steam_id:] matter on
    stores the server reaches: nothing between the identity gateway and the
    tables rejects an empty identity. *)

Lemma sample_run_reachable :
  reachable SampleJwt.jwt_encode SampleJwt.jwt_claims 0 SampleRun.after_login
  ∧ reachable SampleJwt.jwt_encode SampleJwt.jwt_claims 1 SampleRun.after_listing.
Proof.
  assert (reachable SampleJwt.jwt_encode SampleJwt.jwt_claims 0
            SampleRun.after_login) as Hlogin.
  { apply (reachable_serve _ _ 0); [apply reachable_empty|done]. }
  split; [exact Hlogin|]. by apply (reachable_serve _ _ 0).
Qed.

Lemma sample_run_listing :
  for_sale_items SampleRun.after_listing
  = [ForSaleItem.mk "ironKnife" 5 10 "sam" "" "" None 1].
Proof. by vm_compute. Qed.

(** The listing of the run is sold for 10 silver without an escrow row. *)
Lemma buy_proceeds_differ_on_reachable_store :
  ¬ buy_proceeds_match SampleRun.after_listing
      (BuyRequest.mk [Sample.line 1] 100) Sample.alice 7.
Proof.
  intros H.
  assert (∃ resp, (handle_buy SampleRun.after_listing
                     (BuyRequest.mk [Sample.line 1] 100) Sample.alice 7).1
                  = Returned resp) as [resp Hresp]
    by (vm_compute; eauto).
  assert (pending_sales (handle_buy SampleRun.after_listing
            (BuyRequest.mk [Sample.line 1] 100) Sample.alice 7).2 = [])
    as Hpending by (vm_compute; reflexivity).
  assert (SaleHistory.total_cost
            <$> sales_history (handle_buy SampleRun.after_listing
                  (BuyRequest.mk [Sample.line 1] 100) Sample.alice 7).2
          = [0; 10]) as Hhistory by (vm_compute; reflexivity).
  assert (pending_sales SampleRun.after_listing = []) as Hp0
    by (vm_compute; reflexivity).
  assert (SaleHistory.total_cost <$> sales_history SampleRun.after_listing = [0])
    as Hh0 by (vm_compute; reflexivity).
  destruct (handle_buy SampleRun.after_listing
              (BuyRequest.mk [Sample.line 1] 100) Sample.alice 7)
    as [out db'] eqn:Hbuy.
  cbn [fst snd] in Hresp, Hpending, Hhistory. subst out.
  destruct (H resp db' Hbuy) as (created & record & Hp & Hh & Hsum).
  rewrite Hpending, Hp0 in Hp. cbn [app] in Hp. subst created.
  rewrite Hh, fmap_app, Hh0 in Hhistory.
  injection Hhistory as Hcost. rewrite Hcost in Hsum. discriminate.
Qed.

(** The store of the sample renewal is one the server reaches. *)
Lemma sample_renewal_reachable :
  reachable SampleJwt.jwt_encode SampleJwt.jwt_claims 82800
    SampleRenewal.after_validation.
Proof.
  apply reachable_serve with (clock := 0); [|lia].
  apply reachable_serve with (clock := 0); [|lia].
  apply reachable_empty.
Qed.

(** The token of the run is accepted at time 10 and nothing is renewed. *)
Lemma validation_does_not_slide_on_reachable_store :
  ¬ validation_slides SampleJwt.jwt_claims SampleRun.after_login
      SampleRun.token 10.
Proof.
  intros H.
  assert (∃ payload, (verify_jwt_token SampleJwt.jwt_claims
                        SampleRun.after_login SampleRun.token 10).1.1
                     = Some payload) as [payload Hpayload]
    by (vm_compute; eauto).
  assert (ActiveToken.expires_at
            <$> active_tokens (verify_jwt_token SampleJwt.jwt_claims
                  SampleRun.after_login SampleRun.token 10).2 !! SampleRun.token
          = Some 86400) as Hstored by (vm_compute; reflexivity).
  destruct (verify_jwt_token SampleJwt.jwt_claims SampleRun.after_login
              SampleRun.token 10) as [[out message] db'] eqn:Hverify.
  cbn [fst snd] in Hpayload, Hstored. subst out.
  destruct (H payload message db' Hverify) as [Hexp _].
  rewrite Hstored in Hexp. discriminate.
Qed.

(** * Properties of the rest of the server *)

(** ** The identity gateway *)

Lemma transient_continue (api : nat → SteamReply) attempt :
  transient (api attempt) → (attempt < max_retries - 1)%nat →
  match try_block (api attempt) attempt with
  | Raises e => except_clauses e attempt
  | ended => ended
  end = SleepAndContinue.
Proof.
  intros [Hreply|Hreply] Hlt; rewrite Hreply; simpl; by rewrite decide_True.
Qed.

Lemma verdict_ends (api : nat → SteamReply) attempt :
  ¬ transient (api attempt) →
  match try_block (api attempt) attempt with
  | Raises e => except_clauses e attempt
  | ended => ended
  end ≠ SleepAndContinue.
Proof.
  unfold transient. intros Hreply.
  destruct (api attempt) as [| | |[[[] [id|]]|]]; simpl; try done;
    destruct Hreply; auto.
Qed.

(** After [k] replies that are retried, the loop is where a single attempt
    number [k] would be, [k] requests and [k] seconds later. *)
Lemma steam_attempts_skip (api : nat → SteamReply) k a n requests slept :
  (a + n = max_retries)%nat → (k < n)%nat →
  (∀ j, (j < k)%nat → transient (api (a + j)%nat)) →
  ¬ transient (api (a + k)%nat) →
  steam_attempts api (seq a n) requests slept
  = steam_attempts api [(a + k)%nat] (requests + k) (slept + k).
Proof.
  revert a n requests slept.
  induction k as [|k IH]; intros a n requests slept Han Hk Hbefore Hat.
  - destruct n as [|n]; [lia|]. rewrite !Nat.add_0_r in *. simpl.
    pose proof (verdict_ends api a Hat) as Hends.
    by destruct (match try_block (api a) a with
                 | Raises e => except_clauses e a
                 | ended => ended
                 end).
  - destruct n as [|n]; [lia|]. simpl.
    rewrite transient_continue.
    + rewrite (IH (S a) n); [|unfold max_retries in *; lia|lia| |].
      * rewrite !Nat.add_succ_r. reflexivity.
      * intros j Hj. replace (S a + j)%nat with (a + S j)%nat by lia.
        apply Hbefore. lia.
      * by replace (S a + k)%nat with (a + S k)%nat by lia.
    + specialize (Hbefore 0%nat). rewrite Nat.add_0_r in Hbefore.
      apply Hbefore. lia.
    + unfold max_retries in *. simpl. lia.
Qed.

Lemma steam_attempts_exhausted (api : nat → SteamReply) a n requests slept :
  (a + n = max_retries)%nat → (1 ≤ n)%nat →
  (∀ j, (j < n)%nat → transient (api (a + j)%nat)) →
  steam_attempts api (seq a n) requests slept
  = SteamResult.mk
      (inl (RaiseHTTP (mkHTTPException 401 "Steam authentication failed")))
      (requests + n) (slept + n - 1).
Proof.
  revert a requests slept.
  induction n as [|n IH]; intros a requests slept Han Hn Hall; [lia|].
  simpl. destruct n as [|n].
  - (* the last attempt *)
    assert (a = 2%nat) as -> by (unfold max_retries in *; lia).
    destruct (Hall 0%nat ltac:(lia)) as [Hreply|Hreply];
      rewrite Nat.add_0_r in Hreply; rewrite Hreply; simpl;
      repeat f_equal; lia.
  - rewrite transient_continue.
    + rewrite (IH (S a)); [|lia|lia|].
      * f_equal; lia.
      * intros j Hj. replace (S a + j)%nat with (a + S j)%nat by lia.
        apply Hall. lia.
    + specialize (Hall 0%nat). rewrite Nat.add_0_r in Hall. apply Hall. lia.
    + unfold max_retries in *. simpl. lia.
Qed.

(** The replies of the attempts split three ways: a first reply that is not
    retried at one of the three attempts, or three retried ones. *)
Lemma steam_replies_cases (api : nat → SteamReply) :
  (∃ k, (k < max_retries)%nat ∧ (∀ j, (j < k)%nat → transient (api j))
        ∧ ¬ transient (api k))
  ∨ (∀ j, (j < max_retries)%nat → transient (api j)).
Proof.
  assert (∀ reply, Decision (transient reply)) as Hdec.
  { intros reply. unfold transient.
    destruct reply; [left; by left|left; by right|right; by intros [?|?]..]. }
  destruct (Hdec (api 0%nat)) as [H0|H0].
  2: { left. exists 0%nat. split_and!; [unfold max_retries; lia| |done].
       intros j Hj. lia. }
  destruct (Hdec (api 1%nat)) as [H1|H1].
  2: { left. exists 1%nat. split_and!; [unfold max_retries; lia| |done].
       intros j Hj. by replace j with 0%nat by lia. }
  destruct (Hdec (api 2%nat)) as [H2|H2].
  2: { left. exists 2%nat. split_and!; [unfold max_retries; lia| |done].
       intros j Hj. destruct j as [|[|j]]; [done..|lia]. }
  right. intros j Hj. unfold max_retries in Hj.
  destruct j as [|[|[|j]]]; [done..|lia].
Qed.

(** X1: Whatever goes wrong, the caller of the gateway sees one exception only:
    status 401, "Steam authentication failed".  The "Invalid Steam response"
    raised inside the [try] block is caught by its own [except Exception]. *)
Theorem steam_failure_is_authentication_failed STEAM_API_KEY steam_api ticket e :
  SteamResult.outcome
    (validate_steam_ticket_with_api STEAM_API_KEY steam_api ticket) = inl e →
  e = RaiseHTTP (mkHTTPException 401 "Steam authentication failed").
Proof.
  unfold validate_steam_ticket_with_api.
  destruct (_ || _); [done|].
  destruct (steam_replies_cases (steam_api ticket))
    as [(k & Hk & Hbefore & Hat)|Hall].
  - rewrite (steam_attempts_skip _ k 0 max_retries); auto. simpl.
    unfold transient in Hat.
    destruct (steam_api ticket k) as [| | |[[[] [id|]]|]]; simpl;
      try (destruct Hat; by auto); try case_decide; simpl; congruence.
  - rewrite (steam_attempts_exhausted _ 0 max_retries); auto;
      [simpl; congruence|unfold max_retries; lia].
Qed.

Lemma steam_failure_is_authentication_failed_witness :
  SteamResult.outcome
    (validate_steam_ticket_with_api "key" SampleSteam.garbled "ticket")
  = inl (RaiseHTTP (mkHTTPException 401 "Steam authentication failed")).
Proof.
  assert (∃ e, SteamResult.outcome
                 (validate_steam_ticket_with_api "key" SampleSteam.garbled "ticket")
               = inl e) as [e He] by (vm_compute; eauto).
  rewrite He. f_equal.
  exact (steam_failure_is_authentication_failed "key" SampleSteam.garbled
           "ticket" e He).
Defined.

Lemma configured_runs STEAM_API_KEY steam_api ticket :
  configured STEAM_API_KEY →
  validate_steam_ticket_with_api STEAM_API_KEY steam_api ticket
  = steam_attempts (steam_api ticket) (seq 0 max_retries) 0 0.
Proof.
  intros [Hset Hreal]. unfold validate_steam_ticket_with_api, truthy.
  by rewrite bool_decide_true, bool_decide_false.
Qed.

(** X2: With a configured key, after up to two replies that are retried (a 401
    or an exception of [requests]), a body with a [steamid] and no error gives
    that identity, one request per reply and one second of sleep per retry. *)
Theorem steam_success_after_retries STEAM_API_KEY steam_api ticket k steam_id :
  configured STEAM_API_KEY →
  (k < max_retries)%nat →
  (∀ j, (j < k)%nat → transient (steam_api ticket j)) →
  steam_api ticket k = Json (Some (SteamResponse.mk false (Some steam_id))) →
  validate_steam_ticket_with_api STEAM_API_KEY steam_api ticket
  = SteamResult.mk (inr steam_id) (S k) k.
Proof.
  intros Hkey Hk Hbefore Hat. rewrite configured_runs by done.
  rewrite (steam_attempts_skip _ k 0 max_retries); auto.
  - simpl. by rewrite Hat.
  - simpl. rewrite Hat. by intros [?|?].
Qed.

Lemma steam_success_after_retries_witness :
  validate_steam_ticket_with_api "key" SampleSteam.slow "ticket"
  = SteamResult.mk (inr "76561198000000001") 3 2.
Proof.
  apply (steam_success_after_retries "key" SampleSteam.slow "ticket" 2).
  - split; discriminate.
  - unfold max_retries. lia.
  - intros j Hj. destruct j as [|[|j]]; [by left|by right|lia].
  - reflexivity.
Defined.

(** X3: The gateway sends at most three requests.  With a configured key, a
    first reply that is not retried ends the loop at once, after one request
    per reply and one second of sleep per earlier reply, and three retried
    replies end it with the failure after three requests and two seconds;
    with the key unset or left at its placeholder it sends nothing and
    returns the development identity. *)
Theorem steam_requests_bounded STEAM_API_KEY steam_api ticket :
  let result := validate_steam_ticket_with_api STEAM_API_KEY steam_api ticket in
  (SteamResult.requests result ≤ max_retries)%nat
  ∧ (configured STEAM_API_KEY →
     ∀ k, (k < max_retries)%nat →
          (∀ j, (j < k)%nat → transient (steam_api ticket j)) →
          ¬ transient (steam_api ticket k) →
          SteamResult.requests result = S k ∧ SteamResult.slept result = k)
  ∧ (configured STEAM_API_KEY →
     (∀ j, (j < max_retries)%nat → transient (steam_api ticket j)) →
     result = SteamResult.mk
                (inl (RaiseHTTP (mkHTTPException 401 "Steam authentication failed")))
                3 2)
  ∧ (¬ configured STEAM_API_KEY →
     result = SteamResult.mk (inr "mock_steam_id_12345") 0 0).
Proof.
  assert (∀ k, (k < max_retries)%nat →
            (∀ j, (j < k)%nat → transient (steam_api ticket j)) →
            ¬ transient (steam_api ticket k) →
            SteamResult.requests
              (steam_attempts (steam_api ticket) (seq 0 max_retries) 0 0) = S k
            ∧ SteamResult.slept
                (steam_attempts (steam_api ticket) (seq 0 max_retries) 0 0) = k)
    as Hverdict.
  { intros k Hk Hbefore Hat.
    rewrite (steam_attempts_skip _ k 0 max_retries); auto. simpl.
    pose proof (verdict_ends (steam_api ticket) k Hat) as Hends.
    by destruct (match try_block (steam_api ticket k) k with
                 | Raises e => except_clauses e k
                 | ended => ended
                 end). }
  assert ((∀ j, (j < max_retries)%nat → transient (steam_api ticket j)) →
          steam_attempts (steam_api ticket) (seq 0 max_retries) 0 0
          = SteamResult.mk
              (inl (RaiseHTTP (mkHTTPException 401 "Steam authentication failed")))
              3 2) as Hdown.
  { intros Hall.
    rewrite (steam_attempts_exhausted _ 0 max_retries); auto.
    unfold max_retries. lia. }
  simpl. split_and!.
  - unfold validate_steam_ticket_with_api. destruct (_ || _); [simpl; lia|].
    destruct (steam_replies_cases (steam_api ticket))
      as [(k & Hk & Hbefore & Hat)|Hall].
    + destruct (Hverdict k Hk Hbefore Hat) as [-> _]. lia.
    + rewrite Hdown by done. simpl. unfold max_retries. lia.
  - intros Hkey. rewrite configured_runs by done. exact Hverdict.
  - intros Hkey. rewrite configured_runs by done. exact Hdown.
  - intros Hkey. unfold validate_steam_ticket_with_api, truthy.
    destruct (decide (STEAM_API_KEY = "")) as [->|Hset]; [done|].
    destruct (decide (STEAM_API_KEY = "YOUR_STEAM_API_KEY")) as [->|Hreal];
      [done|].
    destruct Hkey. by split.
Qed.

Lemma steam_requests_bounded_witness :
  validate_steam_ticket_with_api "key" SampleSteam.down "ticket"
  = SteamResult.mk
      (inl (RaiseHTTP (mkHTTPException 401 "Steam authentication failed"))) 3 2
  ∧ validate_steam_ticket_with_api "YOUR_STEAM_API_KEY" SampleSteam.down "ticket"
    = SteamResult.mk (inr "mock_steam_id_12345") 0 0
  ∧ SteamResult.requests
      (validate_steam_ticket_with_api "key" SampleSteam.garbled "ticket") = 1%nat.
Proof.
  split_and!.
  - apply (proj1 (proj2 (proj2 (steam_requests_bounded "key" SampleSteam.down
             "ticket")))); [split; discriminate|].
    intros j _. by right.
  - apply (proj2 (proj2 (proj2 (steam_requests_bounded "YOUR_STEAM_API_KEY"
             SampleSteam.down "ticket")))).
    intros [_ Hreal]. by apply Hreal.
  - apply (proj1 (proj2 (steam_requests_bounded "key" SampleSteam.garbled
             "ticket")) ltac:(split; discriminate) 0%nat).
    + unfold max_retries. lia.
    + intros j Hj. lia.
    + by intros [?|?].
Defined.

(** ** [get_current_user] *)

Lemma bearer_header token :
  String.prefix "Bearer " ("Bearer " +:+ token) = true
  ∧ string_from 7 ("Bearer " +:+ token) = token.
Proof. split; [|done]. simpl. by destruct token. Qed.

Lemma get_current_user_accepted (jwt_claims : string → option Payload.t)
    db token now payload message db' :
  verify_jwt_token jwt_claims db token now = ((Some payload, message), db') →
  get_current_user jwt_claims db (Some ("Bearer " +:+ token)) now
  = (inr payload, db').
Proof.
  destruct (bearer_header token) as [Hprefix Hfrom].
  intros Hverify. unfold get_current_user.
  rewrite Hprefix, Hfrom, Hverify. done.
Qed.

(** X4: The header "Bearer " followed by a token is read back as that token:
    the payload [verify_jwt_token] returns for it is the user, and whatever
    reason it rejects the token with, the caller gets 401 "Invalid token" and
    the store is left as it was. *)
Theorem get_current_user_bearer (jwt_claims : string → option Payload.t)
    db token now :
  (∀ payload message db',
     verify_jwt_token jwt_claims db token now = ((Some payload, message), db') →
     get_current_user jwt_claims db (Some ("Bearer " +:+ token)) now
     = (inr payload, db'))
  ∧ (∀ message db',
       verify_jwt_token jwt_claims db token now = ((None, message), db') →
       get_current_user jwt_claims db (Some ("Bearer " +:+ token)) now
       = (inl (mkHTTPException 401 "Invalid token"), db)).
Proof.
  destruct (bearer_header token) as [Hprefix Hfrom].
  split.
  - intros payload message db' Hverify. unfold get_current_user.
    rewrite Hprefix, Hfrom, Hverify. done.
  - intros message db' Hverify. unfold get_current_user.
    rewrite Hprefix, Hfrom, Hverify.
    apply verify_jwt_token_rejects in Hverify as ->. done.
Qed.

Lemma get_current_user_bearer_witness :
  get_current_user SampleTokens.claims SampleTokens.db
    (Some "Bearer tok-sam") 10
  = (inl (mkHTTPException 401 "Invalid token"), SampleTokens.db)
  ∧ (get_current_user SampleTokens.claims SampleTokens.db
       (Some "Bearer tok-alice") 10).1
    = inr (set_exp (10 + 86400) Sample.alice).
Proof.
  split.
  - apply (proj2 (get_current_user_bearer SampleTokens.claims SampleTokens.db
                    "tok-sam" 10) "Token has been revoked" SampleTokens.db).
    reflexivity.
  - exact (f_equal fst
             (proj1 (get_current_user_bearer SampleTokens.claims
                       SampleTokens.db "tok-alice" 10)
                (set_exp (10 + 86400) Sample.alice) "Valid" _ eq_refl)).
Defined.

(** X5: A request [get_current_user] turns down has written nothing, and it is
    turned down with one of three exceptions; 400 is for a header that is
    there but does not start with "Bearer ". *)
Theorem get_current_user_rejection (jwt_claims : string → option Payload.t)
    db authorization now e db' :
  get_current_user jwt_claims db authorization now = (inl e, db') →
  db' = db
  ∧ (e = mkHTTPException 401 "Missing authorization header"
       ∧ (authorization = None ∨ authorization = Some "")
     ∨ e = mkHTTPException 400 "Invalid authorization format"
       ∧ (∃ header, authorization = Some header
                    ∧ String.prefix "Bearer " header = false)
     ∨ e = mkHTTPException 401 "Invalid token"
       ∧ (∃ header, authorization = Some header
                    ∧ String.prefix "Bearer " header = true)).
Proof.
  unfold get_current_user, truthy.
  destruct authorization as [header|]; [|intros [= <- <-]; auto].
  destruct (decide (header = "")) as [->|Hheader]; [intros [= <- <-]; auto|].
  rewrite bool_decide_true by done. simpl.
  destruct (String.prefix "Bearer " header) eqn:Hprefix; simpl.
  - destruct (verify_jwt_token _ _ _ _) as [[[payload|] message] db1]
      eqn:Hverify; [done|].
    intros [= <- <-]. apply verify_jwt_token_rejects in Hverify as ->.
    split; [done|]. right. right. eauto.
  - intros [= <- <-]. split; [done|]. right. left. eauto.
Qed.

Lemma get_current_user_rejection_witness :
  get_current_user SampleTokens.claims SampleTokens.db
    (Some "bearer tok-alice") 10
  = (inl (mkHTTPException 400 "Invalid authorization format"), SampleTokens.db).
Proof.
  destruct (get_current_user SampleTokens.claims SampleTokens.db
              (Some "bearer tok-alice") 10) as [[e|payload] db'] eqn:Hout;
    [|vm_compute in Hout; discriminate].
  destruct (get_current_user_rejection _ _ _ _ _ _ Hout)
    as [-> [[_ [?|?]]|[[-> _]|[_ (header & [= <-] & Hprefix)]]]];
    try done.
Defined.

(** ** [login] and [logout] *)

Lemma generate_jwt_token_returned jwt_encode db steam_id player_name user_agent
    uuid4 now token db' :
  generate_jwt_token jwt_encode db steam_id player_name user_agent uuid4 now
  = (Returned token, db') →
  token = jwt_encode (Payload.mk steam_id player_name
                        (now + JWT_EXPIRATION_HOURS * 3600) now uuid4)
  ∧ active_tokens db !! token = None
  ∧ active_tokens db'
    = <[token := ActiveToken.mk steam_id player_name now
                   (now + JWT_EXPIRATION_HOURS * 3600) 0]> (active_tokens db)
  ∧ active_users db' = <[steam_id := ActiveUser.mk player_name now]> (active_users db)
  ∧ user_sessions db'
    = user_sessions db
      ++ [UserSession.mk steam_id player_name now None now true user_agent]
  ∧ for_sale_items db' = for_sale_items db
  ∧ sales_history db' = sales_history db
  ∧ pending_sales db' = pending_sales db.
Proof.
  unfold generate_jwt_token.
  destruct (active_tokens db !! _) as [taken|] eqn:Hfree; [done|].
  intros [= <- <-]. simpl. split_and!; try done.
  by destruct (active_users db !! steam_id).
Qed.

(** X6: A token handed out by [login] authenticates: under a [jwt] library that
    reads back the claims it signed, at every time [now'] from the time of the
    login on and less than 24 hours after it, the header "Bearer " plus the
    token gets through [get_current_user] as the identity the gateway
    returned, under the player name of the login.  (Under a clock set back
    behind the login the library refuses the token for its [iat], and after
    the 24 hours for its [exp].) *)
Theorem login_then_authenticate jwt_encode jwt_claims STEAM_API_KEY steam_api
    db authTicket playerName user_agent uuid4 now token db' now' :
  (∀ payload, jwt_claims (jwt_encode payload) = Some payload) →
  login jwt_encode STEAM_API_KEY steam_api db authTicket playerName user_agent
    uuid4 now = (LoggedIn token, db') →
  now ≤ now' < now + 24 * 3600 →
  ∃ payload db'',
    get_current_user jwt_claims db' (Some ("Bearer " +:+ token)) now'
    = (inr payload, db'')
    ∧ SteamResult.outcome
        (validate_steam_ticket_with_api STEAM_API_KEY steam_api authTicket)
      = inr (Payload.steam_id payload)
    ∧ Payload.player_name payload = playerName.
Proof.
  intros Hround Hlogin Hnow. unfold login in Hlogin.
  destruct (SteamResult.outcome _) as [e|steam_id]; [done|].
  destruct (generate_jwt_token _ _ _ _ _ _ _) as [[token'|e] db1] eqn:Hgen;
    [|done].
  injection Hlogin as -> ->.
  apply generate_jwt_token_returned in Hgen as (Htoken & _ & Htokens & _).
  destruct (verify_jwt_token jwt_claims db' token now')
    as [[payload message] db''] eqn:Hverify.
  pose proof Hverify as Hcases. unfold verify_jwt_token, jwt_decode in Hcases.
  rewrite Htokens, lookup_insert_eq in Hcases. simpl in Hcases.
  rewrite Htoken, Hround in Hcases. simpl in Hcases.
  rewrite decide_False in Hcases by (unfold JWT_EXPIRATION_HOURS; lia).
  rewrite decide_False in Hcases by lia.
  simpl in Hcases. destruct (truthy steam_id); injection Hcases as <- _ _;
    (eexists _, _; split;
     [by apply (get_current_user_accepted jwt_claims db' token now' _ message)
     |done]).
Qed.

Lemma login_then_authenticate_witness :
  let out := login SampleJwt.jwt_encode "key" SampleSteam.slow
               (mkDatabase [] [] [] ∅ ∅ []) "ticket" "sam" None "uuid-1" 0 in
  ∃ token payload db'',
    out.1 = LoggedIn token
    ∧ get_current_user SampleJwt.jwt_claims out.2 (Some ("Bearer " +:+ token)) 3600
      = (inr payload, db'')
    ∧ Payload.steam_id payload = "76561198000000001"
    ∧ Payload.player_name payload = "sam".
Proof.
  intros out.
  assert (∃ token, out.1 = LoggedIn token) as [token Htoken]
    by (vm_compute; eauto).
  assert (out = (LoggedIn token, out.2)) as Hout
    by (rewrite <- Htoken; by destruct out).
  destruct (login_then_authenticate SampleJwt.jwt_encode SampleJwt.jwt_claims
              "key" SampleSteam.slow (mkDatabase [] [] [] ∅ ∅ []) "ticket" "sam"
              None "uuid-1" 0 token out.2 3600 sample_jwt_reads_back Hout)
    as (payload & db'' & Hauth & Hid & Hname); [lia|].
  exists token, payload, db''. split_and!; [done..| |done].
  assert (SteamResult.outcome
            (validate_steam_ticket_with_api "key" SampleSteam.slow "ticket")
          = inr "76561198000000001") as Hsteam by reflexivity.
  rewrite Hsteam in Hid. by injection Hid.
Defined.

(** X8: [logout] keeps the presence record of the identity exactly when the
    identity holds another token that is not revoked; otherwise it deletes
    it.  No other presence record changes either way. *)
Theorem logout_presence db token user now :
  let steam_id := Payload.steam_id user in
  (holds_other_token db token steam_id →
   active_users (logout db token user now) = active_users db)
  ∧ (¬ holds_other_token db token steam_id →
     active_users (logout db token user now) = delete steam_id (active_users db)).
Proof.
  simpl. unfold logout. simpl.
  set (tokens' := alter (ActiveTokenOps.set_revoked 1) token (active_tokens db)).
  set (live := filter (λ kv : string * ActiveToken.t,
                         ActiveToken.steam_id kv.2 = Payload.steam_id user
                         ∧ ActiveToken.revoked kv.2 = 0) tokens').
  assert (holds_other_token db token (Payload.steam_id user) ↔ live ≠ ∅) as Hlive.
  { split.
    - intros (other & row & Hne & Hrow & Hid & Hrev) Hempty.
      assert (live !! other = Some row) as Hin.
      { apply map_lookup_filter_Some. split; [|done].
        unfold tokens'. by rewrite lookup_alter_ne. }
      rewrite Hempty, lookup_empty in Hin. done.
    - intros Hne. apply map_choose in Hne as (other & row & Hin).
      apply map_lookup_filter_Some in Hin as [Hrow [Hid Hrev]].
      simpl in Hid, Hrev. unfold tokens' in Hrow.
      destruct (decide (token = other)) as [<-|Hother].
      + rewrite lookup_alter_eq in Hrow.
        destruct (active_tokens db !! token) as [old|]; [|done].
        injection Hrow as <-. done.
      + rewrite lookup_alter_ne in Hrow by done.
        exists other, row. split_and!; auto. }
  split.
  - intros Hother. rewrite decide_False; [done|].
    rewrite map_size_empty_iff. by apply Hlive.
  - intros Hnone. rewrite decide_True; [done|].
    apply map_size_empty_iff. destruct (decide (live = ∅)) as [|Hne]; [done|].
    destruct Hnone. by apply Hlive.
Qed.

Lemma logout_presence_witness :
  active_users (logout SampleSweep.db "tok-old" Sample.alice 7)
  = active_users SampleSweep.db
  ∧ active_users (logout SampleSweep.db "tok-sam" Sample.sam 7) !! "steam_sam"
    = None.
Proof.
  split.
  - apply (proj1 (logout_presence SampleSweep.db "tok-old" Sample.alice 7)).
    exists "tok-new", (ActiveToken.mk "steam_alice" "alice" 0 150000 0).
    split_and!; [discriminate|reflexivity..].
  - rewrite (proj2 (logout_presence SampleSweep.db "tok-sam" Sample.sam 7)).
    + apply lookup_delete_eq.
    + intros (other & row & Hne & Hrow & Hid & Hrev).
      unfold SampleSweep.db in Hrow. simpl in Hrow.
      apply lookup_insert_Some in Hrow as [[<- _]|[_ Hrow]]; [done|].
      apply lookup_insert_Some in Hrow as [[_ <-]|[_ Hrow]]; [done|].
      apply lookup_insert_Some in Hrow as [[_ <-]|[_ Hrow]]; done.
Defined.

(** X9: [logout] closes every open session of the identity, whichever login
    opened it, with [now] as its end; the sessions of every other identity,
    and the sessions already closed, stay as they are. *)
Theorem logout_sessions db token user now :
  let steam_id := Payload.steam_id user in
  let sessions' := user_sessions (logout db token user now) in
  length sessions' = length (user_sessions db)
  ∧ Forall (λ s, UserSession.steam_id s = steam_id →
                 UserSession.is_active s = false) sessions'
  ∧ (∀ i s, user_sessions db !! i = Some s →
            UserSession.steam_id s = steam_id → UserSession.is_active s = true →
            sessions' !! i = Some (end_session now s))
  ∧ (∀ i s, user_sessions db !! i = Some s →
            UserSession.steam_id s ≠ steam_id ∨ UserSession.is_active s = false →
            sessions' !! i = Some s).
Proof.
  simpl. unfold logout. simpl. split_and!.
  - by rewrite length_fmap.
  - apply Forall_fmap, Forall_forall. intros s _. simpl.
    case_decide as Hcase; simpl; [done|].
    intros Hid. destruct (UserSession.is_active s); [|done].
    destruct Hcase. done.
  - intros i s Hs Hid Hactive. rewrite list_lookup_fmap, Hs. simpl.
    by rewrite decide_True.
  - intros i s Hs Hother. rewrite list_lookup_fmap, Hs. simpl.
    rewrite decide_False; [done|]. intros [Hid Hactive].
    destruct Hother as [Hne|Hclosed]; [done|congruence].
Qed.

Lemma logout_sessions_witness :
  user_sessions (logout SampleSweep.db "tok-sam" Sample.sam 7) !! 1%nat
  = Some (end_session 7 (SampleSweep.session 99000 true None))
  ∧ user_sessions (logout SampleSweep.db "tok-sam" Sample.sam 7) !! 2%nat
    = Some (SampleSweep.session 10 false (Some 20)).
Proof.
  destruct (logout_sessions SampleSweep.db "tok-sam" Sample.sam 7)
    as (_ & _ & Hclosed & Hkept).
  split.
  - apply Hclosed; reflexivity.
  - apply Hkept; [reflexivity|by right].
Defined.

(** ** Listing: [handle_trade], [get_my_items], [remove_item] *)

Lemma list_records_storable user now records rows newly_listed_items :
  Forall storable records →
  list_records user now rows newly_listed_items records
  = (Returned (newly_listed_items
               ++ (listing_details ∘ listed user now <$> records)),
     rows ++ (listed user now <$> records)).
Proof.
  intros Hall. revert rows newly_listed_items.
  induction Hall as [|record records Hrecord _ IH]; intros rows news.
  - simpl. by rewrite !app_nil_r.
  - cbn [list_records]. cbv zeta. rewrite decide_True by exact Hrecord.
    rewrite IH, !fmap_cons, <- !app_assoc. done.
Qed.

Lemma list_records_overflow user now before record after rows newly_listed_items :
  Forall storable before → ¬ storable record →
  list_records user now rows newly_listed_items (before ++ record :: after)
  = (Raised OverflowError, rows ++ (listed user now <$> before)).
Proof.
  intros Hall Hrecord. revert rows newly_listed_items.
  induction Hall as [|r before Hr _ IH]; intros rows news.
  - cbn [app list_records]. cbv zeta. rewrite decide_False by exact Hrecord.
    simpl. by rewrite app_nil_r.
  - rewrite <- app_comm_cons. cbn [list_records]. cbv zeta.
    rewrite decide_True by exact Hr.
    rewrite IH, fmap_cons, <- app_assoc. done.
Qed.

(** A batch whose numbers all fit is listed whole, with its history
    record. *)
Lemma handle_trade_returned db records user now :
  Forall storable records →
  handle_trade db records user now
  = (Returned (Z.of_nat (length records)),
     mkDatabase (for_sale_items db ++ (listed user now <$> records))
       (sales_history db
        ++ [SaleHistory.mk now None None
              (listing_details ∘ listed user now <$> records) 0
              (Some (Payload.steam_id user)) (Some (Payload.player_name user))])
       (pending_sales db) (active_users db) (active_tokens db)
       (user_sessions db)).
Proof.
  intros Hall. unfold handle_trade. by rewrite list_records_storable.
Qed.

Lemma handle_trade_listings db records user now :
  Forall storable records →
  for_sale_items (handle_trade db records user now).2
  = for_sale_items db ++ (listed user now <$> records).
Proof. intros Hall. by rewrite handle_trade_returned. Qed.

Lemma sample_trade_storable : Forall storable SampleTrade.records.
Proof.
  apply Forall_cons_2; [|apply Forall_singleton];
    unfold storable, int64; simpl; lia.
Qed.

Lemma owned_by_listed user now records :
  owned_by (Payload.steam_id user) (listed user now <$> records)
  = listed user now <$> records.
Proof.
  unfold owned_by. induction records as [|r records IH]; [done|].
  rewrite fmap_cons, filter_cons, decide_True by done. by rewrite IH.
Qed.

Lemma not_owned_by_listed user now records steam_id :
  steam_id ≠ Payload.steam_id user →
  owned_by steam_id (listed user now <$> records) = [].
Proof.
  intros Hne. unfold owned_by. induction records as [|r records IH]; [done|].
  rewrite fmap_cons, filter_cons, decide_False; [done|]. simpl. congruence.
Qed.

(** X11: [handle_trade] checks no number and commits record by record.  A
    batch whose quantities and prices all fit 64 bits is listed as it comes,
    zero and negative quantities included: every listing on sale has at least
    one unit afterwards exactly when that was so before and every record has
    a quantity of at least one.  At the first record with a quantity or a
    price that does not fit, the call raises [OverflowError]: the records
    before it are on sale, committed each on its own, the ones after it are
    not, and no history record is written. *)
Theorem handle_trade_commits_per_record db records user now :
  (Forall storable records →
   (handle_trade db records user now).1 = Returned (Z.of_nat (length records))
   ∧ (quantities_positive (for_sale_items (handle_trade db records user now).2)
      ↔ quantities_positive (for_sale_items db)
        ∧ Forall (λ record, 1 ≤ TradeRecordModel.Quantity record) records))
  ∧ (∀ before record after,
       records = before ++ record :: after →
       Forall storable before → ¬ storable record →
       handle_trade db records user now
       = (Raised OverflowError,
          mkDatabase (for_sale_items db ++ (listed user now <$> before))
            (sales_history db) (pending_sales db) (active_users db)
            (active_tokens db) (user_sessions db))).
Proof.
  split.
  - intros Hall. rewrite handle_trade_returned by done. split; [done|].
    cbn [snd for_sale_items]. unfold quantities_positive.
    rewrite Forall_app, Forall_fmap. done.
  - intros before record after -> Hall Hrecord. unfold handle_trade.
    by rewrite list_records_overflow.
Qed.

Lemma handle_trade_commits_per_record_witness :
  (handle_trade SampleListings.db SampleTrade.records Sample.sam 9).1
  = Returned 2
  ∧ handle_trade SampleListings.db SampleTrade.oversized Sample.sam 9
    = (Raised OverflowError,
       mkDatabase
         (for_sale_items SampleListings.db
          ++ [listed Sample.sam 9 (TradeRecordModel.mk "steel" 40 2 "")])
         [] [] ∅ ∅ []).
Proof.
  split.
  - apply (proj1 (handle_trade_commits_per_record SampleListings.db
                    SampleTrade.records Sample.sam 9)).
    exact sample_trade_storable.
  - apply (proj2 (handle_trade_commits_per_record SampleListings.db
                    SampleTrade.oversized Sample.sam 9)
             [TradeRecordModel.mk "steel" 40 2 ""]
             (TradeRecordModel.mk "gold" (2 ^ 63) 1 "")
             [TradeRecordModel.mk "ironKnife" 1 12 "good"]).
    + reflexivity.
    + apply Forall_singleton. unfold storable, int64. simpl. lia.
    + unfold storable, int64. simpl. lia.
Defined.

(** X12: What a seller and everybody else see after a listing batch whose
    quantities and prices fit 64 bits: the new listings come after the
    seller's earlier ones, in the order submitted, under the caller's
    identity and name; the list of any other identity is what it was; the
    history gets one record, of total cost 0, whose items are the batch; and
    the call reports the number of records. *)
Theorem handle_trade_my_items db records user now :
  Forall storable records →
  let db' := (handle_trade db records user now).2 in
  (get_my_items db' user).1
  = (get_my_items db user).1 ++ (listing_details ∘ listed user now <$> records)
  ∧ (∀ other, Payload.steam_id other ≠ Payload.steam_id user →
              get_my_items db' other = get_my_items db other)
  ∧ get_for_sale db'
    = get_for_sale db ++ (listing_details ∘ listed user now <$> records)
  ∧ (∃ record, sales_history db' = sales_history db ++ [record]
               ∧ SaleHistory.total_cost record = 0
               ∧ SaleHistory.purchased_items record
                 = (listing_details ∘ listed user now <$> records)
               ∧ SaleHistory.buyer_steam_id record = None)
  ∧ (handle_trade db records user now).1 = Returned (Z.of_nat (length records)).
Proof.
  intros Hall. cbv zeta. unfold get_my_items, get_for_sale.
  rewrite handle_trade_returned by done. cbn [fst snd for_sale_items sales_history].
  split_and!.
  - simpl. rewrite filter_app, fmap_app. f_equal.
    fold (owned_by (Payload.steam_id user) (listed user now <$> records)).
    by rewrite owned_by_listed, list_fmap_compose.
  - intros other Hne. rewrite filter_app.
    fold (owned_by (Payload.steam_id other) (listed user now <$> records)).
    rewrite not_owned_by_listed by done. by rewrite app_nil_r.
  - by rewrite fmap_app, list_fmap_compose.
  - eexists. split; [done|]. simpl. by split_and!.
  - done.
Qed.

Lemma select_by_offset_app (P : ForSaleItem.t → Prop) `{!∀ x, Decision (P x)}
    (l1 l2 : list ForSaleItem.t) (item : ForSaleItem.t) (k : nat) :
  P item →
  ∃ before after,
    filter (λ q, P q.2) (imap (λ i row, ((k + i)%nat, row)) (l1 ++ item :: l2))
    = before ++ ((k + length l1)%nat, item) :: after
    ∧ length before = length (filter P l1).
Proof.
  intros Hitem. revert k. induction l1 as [|x l1 IH]; intros k.
  - eexists [], _. simpl. rewrite filter_cons, decide_True by done.
    rewrite Nat.add_0_r. done.
  - rewrite <- app_comm_cons, imap_cons.
    rewrite (imap_ext _ (λ i row, ((S k + i)%nat, row)) (l1 ++ item :: l2))
      by (intros; simpl; f_equal; lia).
    destruct (IH (S k)) as (before & after & Hsel & Hlen).
    rewrite !filter_cons, Hsel. cbn [snd length].
    replace (S k + length l1)%nat with (k + S (length l1))%nat by lia.
    destruct (decide (P x)).
    + eexists (_ :: before), after. simpl. split; [done|]. by rewrite Hlen.
    + by eexists before, after.
Qed.

(** The row at a known place is the one [remove_item] deletes for the index
    that counts the seller's rows before it. *)
Lemma remove_item_at db user l1 item l2 :
  for_sale_items db = l1 ++ item :: l2 →
  ForSaleItem.seller_steam_id item = Payload.steam_id user →
  remove_item db
    (Z.of_nat (length (owned_by (Payload.steam_id user) l1))) user
  = (Returned item,
     mkDatabase (l1 ++ l2) (sales_history db) (pending_sales db)
       (active_users db) (active_tokens db) (user_sessions db)).
Proof.
  intros Hrows Hitem. unfold remove_item, select_by_seller, py_index.
  rewrite Hrows.
  destruct (select_by_offset_app
              (λ row, ForSaleItem.seller_steam_id row = Payload.steam_id user)
              l1 l2 item 0 Hitem) as (before & after & Hsel & Hlen).
  simpl in Hsel. rewrite Hsel. unfold owned_by. rewrite <- Hlen.
  rewrite decide_False by (rewrite length_app; simpl; lia).
  rewrite decide_True by lia. rewrite Nat2Z.id.
  rewrite list_lookup_middle by done. by rewrite delete_middle.
Qed.

(** X13: Listing and removing undo each other: after a batch whose quantities
    and prices fit 64 bits, the index of the [k]-th new listing is the number
    of listings the seller had before plus [k], and [remove_item] at that
    index takes off that listing and nothing else.  For a batch of one, the
    table is back to what it was. *)
Theorem handle_trade_then_remove_item db records user now (k : nat) record :
  Forall storable records →
  records !! k = Some record →
  let db' := (handle_trade db records user now).2 in
  let index :=
    Z.of_nat (length (owned_by (Payload.steam_id user) (for_sale_items db)) + k) in
  ∃ db'',
    remove_item db' index user = (Returned (listed user now record), db'')
    ∧ for_sale_items db''
      = for_sale_items db ++ (listed user now <$> delete k records)
    ∧ (records = [record] → for_sale_items db'' = for_sale_items db).
Proof.
  intros Hall Hk. cbv zeta.
  pose proof (take_drop_middle records k record Hk) as Hsplit.
  assert (for_sale_items (handle_trade db records user now).2
          = (for_sale_items db ++ (listed user now <$> take k records))
            ++ listed user now record :: (listed user now <$> drop (S k) records))
    as Hrows.
  { rewrite handle_trade_listings by done. rewrite <- Hsplit at 1.
    by rewrite fmap_app, fmap_cons, <- app_assoc. }
  pose proof (remove_item_at _ user _ _ _ Hrows eq_refl) as Hremove.
  unfold owned_by in Hremove. rewrite filter_app in Hremove.
  fold (owned_by (Payload.steam_id user) (listed user now <$> take k records))
    in Hremove.
  rewrite owned_by_listed, length_app, length_fmap, length_take in Hremove.
  apply lookup_lt_Some in Hk as Hlt.
  rewrite Nat.min_l in Hremove by lia.
  eexists. split; [exact Hremove|]. simpl.
  assert (for_sale_items db ++ (listed user now <$> take k records)
            ++ (listed user now <$> drop (S k) records)
          = for_sale_items db ++ (listed user now <$> delete k records)) as Hdel.
  { by rewrite delete_take_drop, fmap_app. }
  rewrite <- app_assoc, Hdel. split; [done|].
  intros ->. destruct k; [|done]. simpl. by rewrite app_nil_r.
Qed.

Lemma handle_trade_then_remove_item_witness :
  ∃ db'',
    remove_item (handle_trade SampleListings.db SampleTrade.records Sample.sam 9).2
      3 Sample.sam
    = (Returned (listed Sample.sam 9 (TradeRecordModel.mk "ironKnife" 1 12 "good")),
       db'')
    ∧ for_sale_items db''
      = for_sale_items SampleListings.db
        ++ [listed Sample.sam 9 (TradeRecordModel.mk "steel" 40 2 "")].
Proof.
  destruct (handle_trade_then_remove_item SampleListings.db SampleTrade.records
              Sample.sam 9 1 (TradeRecordModel.mk "ironKnife" 1 12 "good")
              sample_trade_storable eq_refl) as (db'' & Hremove & Hrows & _).
  exists db''. split; [exact Hremove|exact Hrows].
Defined.

Lemma handle_trade_my_items_witness :
  let db' := (handle_trade SampleListings.db SampleTrade.records Sample.sam 9).2 in
  (get_my_items db' Sample.sam).2 = 4%nat
  ∧ get_my_items db' Sample.alice = get_my_items SampleListings.db Sample.alice.
Proof.
  destruct (handle_trade_my_items SampleListings.db SampleTrade.records
              Sample.sam 9 sample_trade_storable) as (_ & Hother & _).
  split; [reflexivity|]. apply Hother. discriminate.
Defined.

(** X14: The index [remove_item] takes is the index of [get_my_items]: for an
    index that is not negative it returns and deletes the listing shown at
    that index, the seller's list afterwards is the old one without that
    entry, and nobody else's list changes. *)
Theorem remove_item_matches_my_items db index user item db' :
  0 ≤ index →
  remove_item db index user = (Returned item, db') →
  (get_my_items db user).1 !! Z.to_nat index = Some (listing_details item)
  ∧ (get_my_items db' user).1 = delete (Z.to_nat index) (get_my_items db user).1
  ∧ (∀ other, Payload.steam_id other ≠ Payload.steam_id user →
              get_my_items db' other = get_my_items db other).
Proof.
  intros Hindex Hremove.
  pose proof (remove_item_nonnegative_index db index user Hindex) as Hspec.
  rewrite Hremove in Hspec.
  destruct Hspec as (l1 & l2 & Hrows & Hitem & Hlen & ->).
  unfold get_my_items. simpl. rewrite Hrows, !filter_app, !filter_cons.
  rewrite decide_True by done. rewrite <- Hlen, Nat2Z.id.
  split_and!.
  - rewrite fmap_app, fmap_cons.
    rewrite list_lookup_middle; [done|]. by rewrite length_fmap.
  - rewrite !fmap_app, fmap_cons.
    rewrite <- (length_fmap listing_details (filter _ l1)).
    by rewrite delete_middle.
  - intros other Hne. rewrite !filter_app, filter_cons.
    rewrite decide_False; [done|]. congruence.
Qed.

Lemma remove_item_matches_my_items_witness :
  ∃ item db',
    remove_item SampleListings.db 1 Sample.sam = (Returned item, db')
    ∧ (get_my_items SampleListings.db Sample.sam).1 !! 1%nat
      = Some (listing_details item)
    ∧ (get_my_items db' Sample.sam).1
      = [listing_details (Sample.knife 1 "steam_sam")].
Proof.
  eexists _, _. split; [reflexivity|].
  destruct (remove_item_matches_my_items SampleListings.db 1 Sample.sam _ _
              ltac:(lia) eq_refl) as (Hshown & Hrest & _).
  split; [exact Hshown|]. rewrite Hrest. reflexivity.
Defined.

(** ** More on [handle_buy] *)

Lemma process_purchases_totals rows buyer now reqs st :
  tracks rows (BuyState.loaded st) →
  Forall (line_ok rows) reqs →
  let st' := process_purchases buyer now reqs st in
  BuyState.total_cost st' = BuyState.total_cost st + required_cost rows reqs
  ∧ ItemDetails.Quantity <$> BuyState.purchased_items st'
    = (ItemDetails.Quantity <$> BuyState.purchased_items st)
      ++ (BuyItemRequest.quantity <$> reqs).
Proof.
  revert st. induction reqs as [|r reqs IH]; intros st Ht Hok.
  - simpl. split; [lia|by rewrite app_nil_r].
  - apply Forall_cons in Hok as [(item & Hres & Hq) Hok].
    unfold process_purchases in *. cbn [foldl required_cost].
    destruct (IH (process_purchase buyer now st r)
                (process_purchase_tracks _ _ _ _ _ Ht) Hok) as [-> ->].
    unfold process_purchase.
    destruct (first_match (BuyState.loaded st) r) as [[i o]|] eqn:Hfind.
    + destruct (first_match_resolve _ _ _ _ _ Ht Hfind)
        as (item' & Hres' & _ & _ & Hsame).
      rewrite Hres' in *. injection Hres as ->.
      destruct Hsame as (_ & Hprice & _). rewrite Hprice. simpl.
      split; [lia|]. by rewrite fmap_app, <- app_assoc.
    + apply (first_match_None_resolve _ _ _ Ht) in Hfind. congruence.
Qed.

Lemma handle_buy_charges_required_cost_aux db data user now resp db' :
  handle_buy db data user now = (Returned resp, db') →
  ∃ record,
    sales_history db' = sales_history db ++ [record]
    ∧ SaleHistory.buyer_steam_id record = Some (Payload.steam_id user)
    ∧ SaleHistory.seller_steam_id record = None.
Proof.
  unfold handle_buy. destruct (validate_purchases _ _ _); [|done].
  case_decide; [done|]. intros [= _ <-]. by eexists.
Qed.

(** X15: A buy that succeeds charges what the first loop added up, unit price
    times requested quantity over the lines, which the asserted silver
    covers; it reports one purchased item per line, in the order of the
    lines and with the quantity requested; and the history record it appends
    carries that total and the buyer. *)
Theorem handle_buy_charges_required_cost db data user now resp db' :
  handle_buy db data user now = (Returned resp, db') →
  BuyResponse.total_cost resp
  = required_cost (for_sale_items db) (BuyRequest.items data)
  ∧ BuyResponse.total_cost resp ≤ BuyRequest.client_silver data
  ∧ ItemDetails.Quantity <$> BuyResponse.purchased_items resp
    = BuyItemRequest.quantity <$> BuyRequest.items data
  ∧ ∃ record,
      sales_history db' = sales_history db ++ [record]
      ∧ SaleHistory.total_cost record = BuyResponse.total_cost resp
      ∧ SaleHistory.purchased_items record = BuyResponse.purchased_items resp
      ∧ SaleHistory.buyer_steam_id record = Some (Payload.steam_id user).
Proof.
  unfold handle_buy.
  destruct (validate_purchases _ _ _) as [required|] eqn:Hval; [|done].
  pose proof (validate_purchases_returned _ _ _ _ Hval) as Hok.
  rewrite validate_purchases_all_ok in Hval by done. injection Hval as <-.
  case_decide as Hsilver; [done|]. intros [= <- <-].
  destruct (process_purchases_totals (for_sale_items db)
              (Payload.player_name user) now (BuyRequest.items data)
              (BuyState.mk (load (for_sale_items db)) [] [] 0)
              (tracks_load _) Hok) as [Htotal Hitems].
  cbv zeta in Htotal, Hitems. cbn [BuyState.total_cost BuyState.purchased_items]
    in Htotal, Hitems.
  cbn [BuyResponse.total_cost BuyResponse.purchased_items sales_history].
  rewrite Htotal, Hitems. split_and!; [lia|lia|done|].
  eexists. split; [done|].
  cbn [SaleHistory.total_cost SaleHistory.purchased_items
       SaleHistory.buyer_steam_id]. split_and!; [lia|done..].
Qed.

Lemma handle_buy_charges_required_cost_witness :
  ∃ resp db',
    handle_buy (Sample.market 5 "steam_sam")
      (BuyRequest.mk [Sample.line 2; Sample.line 1] 100) Sample.alice 7
    = (Returned resp, db')
    ∧ BuyResponse.total_cost resp = 30
    ∧ ItemDetails.Quantity <$> BuyResponse.purchased_items resp = [2; 1].
Proof.
  eexists _, _. split; [reflexivity|].
  destruct (handle_buy_charges_required_cost (Sample.market 5 "steam_sam")
              (BuyRequest.mk [Sample.line 2; Sample.line 1] 100) Sample.alice 7
              _ _ eq_refl) as (Htotal & _ & Hitems & _).
  split; [exact Htotal|exact Hitems].
Defined.

(** ** More on escrow *)

(** X18: A claim leaves the pending sales of every other seller as they were. *)
Theorem claim_sales_other_sellers db user other :
  Payload.steam_id other ≠ Payload.steam_id user →
  get_pending_sales (claim_sales db user).2 other = get_pending_sales db other.
Proof.
  intros Hne. unfold claim_sales, get_pending_sales.
  destruct (filter _ (pending_sales db)) as [|sale mine]; [done|]. simpl.
  induction (pending_sales db) as [|s sales IH]; [done|].
  rewrite !filter_cons.
  destruct (decide (PendingSale.seller_steam_id s = Payload.steam_id other))
    as [Hs|Hs].
  - rewrite decide_True by congruence. rewrite filter_cons, decide_True by done.
    by rewrite IH.
  - case_decide; [|done]. by rewrite filter_cons, decide_False.
Qed.

Lemma claim_sales_other_sellers_witness :
  get_pending_sales (claim_sales SampleEscrow.db Sample.sam).2
    (Payload.mk "steam_bob" "bob" 0 0 "")
  = [SampleEscrow.sale "steam_bob" 1 7].
Proof.
  rewrite (claim_sales_other_sellers SampleEscrow.db Sample.sam
             (Payload.mk "steam_bob" "bob" 0 0 "")); [reflexivity|discriminate].
Defined.

(** ** More on the sweep *)

Lemma cleanup_pass_keeps_aux db now :
  (∀ token row,
     active_tokens (cleanup_pass db now).2 !! token = Some row
     ↔ active_tokens db !! token = Some row
       ∧ ¬ ActiveToken.expires_at row < now
       ∧ ¬ idle_user db now (ActiveToken.steam_id row))
  ∧ (∀ steam_id user,
       active_users (cleanup_pass db now).2 !! steam_id = Some user
       ↔ active_users db !! steam_id = Some user
         ∧ ¬ ActiveUser.last_seen user < now - 24 * 3600).
Proof.
  split.
  - intros token row. unfold cleanup_pass. cbn [snd active_tokens].
    rewrite remove_inactive_users_tokens, map_lookup_filter_Some. cbn [snd].
    rewrite inactive_users_list. unfold idle_user. tauto.
  - intros steam_id user. unfold cleanup_pass. cbn [snd active_users].
    rewrite remove_inactive_users_users. case_decide as Hin.
    + apply inactive_users_list in Hin as (u & Hu & Hidle).
      split; [done|]. intros [Hsame Hfresh]. congruence.
    + split; [|tauto]. intros Hu. split; [done|]. intros Hidle.
      apply Hin, inactive_users_list. eauto.
Qed.

(** X19: What a pass keeps: a token row stays, unchanged, exactly when its expiry
    is not before [now] and its owner has no presence record idle for more
    than 24 hours; a presence record stays, unchanged, exactly when it is not
    idle for more than 24 hours; listings, history and escrow are not touched;
    and the number the pass reports is the number of presence records it
    deleted. *)
Theorem cleanup_pass_keeps db now :
  let db' := (cleanup_pass db now).2 in
  (∀ token row,
     active_tokens db' !! token = Some row
     ↔ active_tokens db !! token = Some row
       ∧ ¬ ActiveToken.expires_at row < now
       ∧ ¬ idle_user db now (ActiveToken.steam_id row))
  ∧ (∀ steam_id user,
       active_users db' !! steam_id = Some user
       ↔ active_users db !! steam_id = Some user
         ∧ ¬ ActiveUser.last_seen user < now - 24 * 3600)
  ∧ for_sale_items db' = for_sale_items db
  ∧ sales_history db' = sales_history db
  ∧ pending_sales db' = pending_sales db
  ∧ ((cleanup_pass db now).1 + size (active_users db') = size (active_users db))%nat.
Proof.
  destruct (cleanup_pass_keeps_aux db now) as (Htokens & Husers).
  cbv zeta. split_and!; try done.
  - assert (active_users (cleanup_pass db now).2
            = filter (λ kv : string * ActiveUser.t,
                        ¬ ActiveUser.last_seen kv.2 < now - 24 * 3600)
                     (active_users db)) as ->.
    { apply map_eq. intros steam_id. apply option_eq. intros user.
      by rewrite Husers, map_lookup_filter_Some. }
    unfold cleanup_pass. cbn [fst]. rewrite length_map_to_list.
    rewrite <- map_size_disj_union by apply map_disjoint_filter_complement.
    by rewrite map_filter_union_complement.
Qed.

Lemma cleanup_pass_keeps_witness :
  let db' := (cleanup_pass SampleSweep.db 100000).2 in
  active_tokens db' !! "tok-new"
  = Some (ActiveToken.mk "steam_alice" "alice" 0 150000 0)
  ∧ active_users db' !! "steam_alice" = Some (ActiveUser.mk "alice" 99000)
  ∧ (cleanup_pass SampleSweep.db 100000).1 = 1%nat.
Proof.
  destruct (cleanup_pass_keeps SampleSweep.db 100000)
    as (Htokens & Husers & _).
  cbv zeta. split_and!; [| |reflexivity].
  - apply Htokens. split_and!; [reflexivity|vm_compute; discriminate|].
    intros (user & Huser & Hidle). vm_compute in Huser.
    injection Huser as <-. vm_compute in Hidle. discriminate.
  - apply Husers. split; [reflexivity|vm_compute; discriminate].
Defined.

Lemma end_session_twice (P : UserSession.t → Prop) `{!∀ s, Decision (P s)}
    now (sessions : list UserSession.t) :
  (∀ s, P s → UserSession.is_active s = true) →
  (∀ s, UserSession.is_active s = false → ¬ P s) →
  let close := λ s, if decide (P s) then end_session now s else s in
  close <$> (close <$> sessions) = close <$> sessions.
Proof.
  intros Hactive Hclosed close. rewrite <- list_fmap_compose.
  apply list_fmap_ext. intros i s _. unfold close. simpl.
  destruct (decide (P s)) as [Hs|Hs].
  - rewrite decide_False; [done|]. by apply Hclosed.
  - by rewrite decide_False.
Qed.

(** X20: A second pass at the same time finds nothing to do: it removes no
    presence record and leaves the store of the first pass as it is. *)
Theorem cleanup_pass_idempotent db now :
  cleanup_pass (cleanup_pass db now).2 now = (0%nat, (cleanup_pass db now).2).
Proof.
  destruct (cleanup_pass_keeps_aux db now) as (Htokens & Husers).
  set (db' := (cleanup_pass db now).2) in *.
  assert (filter (λ kv : string * ActiveUser.t,
                    ActiveUser.last_seen kv.2 < now - 24 * 3600)
                 (active_users db') = ∅) as Hnone.
  { apply map_empty. intros steam_id. apply map_lookup_filter_None.
    right. intros user Huser. by apply Husers in Huser as [_ ?]. }
  assert (filter (λ kv : string * ActiveToken.t,
                    ¬ ActiveToken.expires_at kv.2 < now) (active_tokens db')
          = active_tokens db') as Hlive.
  { apply map_filter_id. intros token row Hrow.
    by apply Htokens in Hrow as (_ & ? & _). }
  assert (user_sessions (cleanup_pass db' now).2 = user_sessions db') as Hsessions.
  { unfold db', cleanup_pass. cbn [snd user_sessions].
    apply (end_session_twice
             (λ s, UserSession.last_activity s < now - 2 * 3600
                   ∧ UserSession.is_active s = true)); [tauto|].
    intros s Hclosed [_ Hactive]. congruence. }
  unfold cleanup_pass at 1 in Hsessions. cbn [snd user_sessions] in Hsessions.
  unfold cleanup_pass at 1. cbv zeta. rewrite Hnone, Hlive, Hsessions.
  rewrite map_to_list_empty. cbn [foldl length fst snd].
  reflexivity.
Qed.

Lemma validations_sessions (jwt_claims : string → option Payload.t) db uses :
  user_sessions (validations jwt_claims db uses) = user_sessions db.
Proof.
  revert db. induction uses as [|use uses IH]; intros db; [done|].
  unfold validations in *. simpl. rewrite IH.
  by destruct (verify_jwt_token_frame jwt_claims db use.1 use.2) as (_ & _ & _ & ?).
Qed.

(** X21: Using a token does not keep its session open: [last_activity] is
    written by the login alone.  The session a login opens at time [t0] is
    closed by any pass that runs more than 2 hours after [t0], with the time
    of the pass as its end, whatever validations were served in between. *)
Theorem login_session_closed_by_sweep jwt_encode jwt_claims db steam_id
    player_name user_agent uuid4 t0 token db0 uses now :
  generate_jwt_token jwt_encode db steam_id player_name user_agent uuid4 t0
  = (Returned token, db0) →
  t0 < now - 2 * 3600 →
  let db1 := validations jwt_claims db0 uses in
  user_sessions db1 !! length (user_sessions db)
  = Some (UserSession.mk steam_id player_name t0 None t0 true user_agent)
  ∧ user_sessions (cleanup_pass db1 now).2 !! length (user_sessions db)
    = Some (UserSession.mk steam_id player_name t0 (Some now) t0 false user_agent).
Proof.
  intros Hgen Hlate. cbv zeta.
  apply generate_jwt_token_returned in Hgen as (_ & _ & _ & _ & Hsessions & _).
  assert (user_sessions (validations jwt_claims db0 uses)
            !! length (user_sessions db)
          = Some (UserSession.mk steam_id player_name t0 None t0 true user_agent))
    as Hopen.
  { rewrite validations_sessions, Hsessions. by rewrite list_lookup_middle. }
  split; [exact Hopen|].
  unfold cleanup_pass. cbn [snd user_sessions].
  rewrite list_lookup_fmap, Hopen. simpl. by rewrite decide_True.
Qed.

Lemma login_session_closed_by_sweep_witness :
  let db0 := (generate_jwt_token SampleJwt.jwt_encode (mkDatabase [] [] [] ∅ ∅ [])
                "steam_sam" "sam" None "uuid-1" 0).2 in
  let token := SampleJwt.jwt_encode (Payload.mk "steam_sam" "sam" 86400 0 "uuid-1") in
  UserSession.is_active
    <$> user_sessions
          (cleanup_pass
             (validations SampleJwt.jwt_claims db0 [(token, 3600); (token, 7000)])
             7201).2 !! 0%nat
  = Some false.
Proof.
  cbv zeta.
  assert (generate_jwt_token SampleJwt.jwt_encode (mkDatabase [] [] [] ∅ ∅ [])
            "steam_sam" "sam" None "uuid-1" 0
          = (Returned (SampleJwt.jwt_encode
                         (Payload.mk "steam_sam" "sam" 86400 0 "uuid-1")),
             (generate_jwt_token SampleJwt.jwt_encode (mkDatabase [] [] [] ∅ ∅ [])
                "steam_sam" "sam" None "uuid-1" 0).2)) as Hgen.
  { unfold generate_jwt_token. cbn [active_tokens]. by rewrite lookup_empty. }
  rewrite (proj2 (login_session_closed_by_sweep SampleJwt.jwt_encode
                    SampleJwt.jwt_claims (mkDatabase [] [] [] ∅ ∅ []) "steam_sam"
                    "sam" None "uuid-1" 0 _ _ _ 7201 Hgen
                    ltac:(vm_compute; reflexivity))).
  reflexivity.
Defined.

(** ** [verify_jwt_token] and the rows it does not own *)

(** X10: A validation, accepted or not, creates and deletes no token row and no
    presence record, leaves every other token row and every other presence
    record as it is, and changes neither the owner nor the revoked mark of
    its own row, nor the name in the presence record. *)
Theorem verify_jwt_token_touches (jwt_claims : string → option Payload.t)
    db token now :
  let db' := (verify_jwt_token jwt_claims db token now).2 in
  dom (active_tokens db') = dom (active_tokens db)
  ∧ dom (active_users db') = dom (active_users db)
  ∧ (∀ other, other ≠ token →
              active_tokens db' !! other = active_tokens db !! other)
  ∧ ActiveToken.revoked <$> active_tokens db' !! token
    = ActiveToken.revoked <$> active_tokens db !! token
  ∧ ActiveToken.steam_id <$> active_tokens db' !! token
    = ActiveToken.steam_id <$> active_tokens db !! token
  ∧ (∀ steam_id,
       ActiveUser.player_name <$> active_users db' !! steam_id
       = ActiveUser.player_name <$> active_users db !! steam_id).
Proof.
  cbv zeta.
  destruct (verify_jwt_token jwt_claims db token now)
    as [[[payload|] message] db'] eqn:Hverify; cbn [snd].
  - apply verify_jwt_token_accepts in Hverify
      as (row & signed & Hrow & _ & _ & _ & _ & Hdb).
    destruct (truthy (Payload.steam_id signed)); destruct Hdb as [_ ->];
      [|done].
    cbn [active_tokens active_users]. split_and!.
    + apply dom_alter_L.
    + apply dom_alter_L.
    + intros other Hne. by rewrite lookup_alter_ne.
    + rewrite lookup_alter_eq. by destruct (active_tokens db !! token).
    + rewrite lookup_alter_eq. by destruct (active_tokens db !! token).
    + intros steam_id.
      destruct (decide (Payload.steam_id signed = steam_id)) as [<-|Hne].
      * rewrite lookup_alter_eq. by destruct (active_users db !! _).
      * by rewrite lookup_alter_ne.
  - by apply verify_jwt_token_rejects in Hverify as ->.
Qed.

Lemma verify_jwt_token_touches_witness :
  active_tokens (verify_jwt_token SampleTokens.claims SampleTokens.db
                   "tok-alice" 10).2 !! "tok-sam"
  = Some (SampleTokens.row "steam_sam" "sam" 1).
Proof.
  rewrite (proj1 (proj2 (proj2 (verify_jwt_token_touches SampleTokens.claims
             SampleTokens.db "tok-alice" 10))) "tok-sam"); [reflexivity|].
  discriminate.
Defined.

(** ** [get_user_info_endpoint] *)

(** X22: The counters of the user page: a buy that succeeds adds one purchase
    for the buyer and for nobody else; a listing batch whose quantities and
    prices fit 64 bits adds one to the seller's "total sales" (the counter
    reads the history records that name the seller, which are the listing
    batches) and the batch to the seller's items for sale, and adds no
    purchase. *)
Theorem get_user_info_counts db user now :
  (∀ data resp db',
     handle_buy db data user now = (Returned resp, db') →
     UserInfo.total_purchases (get_user_info_endpoint db' user)
     = S (UserInfo.total_purchases (get_user_info_endpoint db user))
     ∧ UserInfo.total_sales (get_user_info_endpoint db' user)
       = UserInfo.total_sales (get_user_info_endpoint db user)
     ∧ ∀ other, Payload.steam_id other ≠ Payload.steam_id user →
                UserInfo.total_purchases (get_user_info_endpoint db' other)
                = UserInfo.total_purchases (get_user_info_endpoint db other))
  ∧ (∀ records,
       Forall storable records →
       let db' := (handle_trade db records user now).2 in
       UserInfo.total_sales (get_user_info_endpoint db' user)
       = S (UserInfo.total_sales (get_user_info_endpoint db user))
       ∧ UserInfo.items_for_sale (get_user_info_endpoint db' user)
         = (UserInfo.items_for_sale (get_user_info_endpoint db user)
            + length records)%nat
       ∧ UserInfo.total_purchases (get_user_info_endpoint db' user)
         = UserInfo.total_purchases (get_user_info_endpoint db user)).
Proof.
  split.
  - intros data resp db' Hbuy.
    destruct (handle_buy_charges_required_cost_aux _ _ _ _ _ _ Hbuy)
      as (record & Hhistory & Hbuyer & Hseller).
    unfold get_user_info_endpoint. cbn [UserInfo.total_purchases UserInfo.total_sales].
    rewrite Hhistory, !filter_app, !length_app, !filter_cons, !filter_nil.
    rewrite Hbuyer, Hseller. rewrite decide_True by done.
    rewrite decide_False by done. cbn [length]. split_and!; [lia|lia|].
    intros other Hne. rewrite !filter_app, !length_app, !filter_cons, !filter_nil.
    rewrite Hbuyer. rewrite decide_False by congruence. cbn [length]. lia.
  - intros records Hall. cbv zeta. unfold get_user_info_endpoint.
    cbn [UserInfo.total_purchases UserInfo.total_sales UserInfo.items_for_sale].
    rewrite handle_trade_returned by done. cbn [snd for_sale_items sales_history].
    rewrite !filter_app, !length_app, !filter_cons, !filter_nil.
    cbn [SaleHistory.seller_steam_id SaleHistory.buyer_steam_id].
    rewrite decide_True by done. rewrite decide_False by done. cbn [length].
    fold (owned_by (Payload.steam_id user) (listed user now <$> records)).
    rewrite owned_by_listed, length_fmap. split_and!; lia.
Qed.

Lemma get_user_info_counts_witness :
  ∃ resp db',
    handle_buy (Sample.market 5 "steam_sam") (BuyRequest.mk [Sample.line 2] 100)
      Sample.alice 7 = (Returned resp, db')
    ∧ UserInfo.total_purchases (get_user_info_endpoint db' Sample.alice) = 1%nat
    ∧ UserInfo.total_purchases (get_user_info_endpoint db' Sample.sam) = 0%nat
    ∧ UserInfo.total_sales
        (get_user_info_endpoint
           (handle_trade (Sample.market 5 "steam_sam") SampleTrade.records
              Sample.alice 7).2 Sample.alice) = 1%nat.
Proof.
  eexists _, _. split; [reflexivity|].
  destruct (proj1 (get_user_info_counts (Sample.market 5 "steam_sam")
                     Sample.alice 7) (BuyRequest.mk [Sample.line 2] 100) _ _
              eq_refl) as (Hmine & _ & Hother).
  split; [exact Hmine|].
  split; [rewrite (Hother Sample.sam); [reflexivity|discriminate]|].
  destruct (proj2 (get_user_info_counts (Sample.market 5 "steam_sam")
                     Sample.alice 7) SampleTrade.records sample_trade_storable)
    as (Hsales & _).
  exact Hsales.
Defined.

(** ** A listing sold twice in one batch *)

Lemma flush_cons o objs :
  flush (o :: objs) = if deleted o then flush objs else obj o :: flush objs.
Proof.
  unfold flush. rewrite filter_cons.
  destruct (deleted o); [by rewrite decide_False|by rewrite decide_True].
Qed.

Lemma flush_insert_deleted rows i item :
  (i < length rows)%nat →
  flush (<[i := mkLoaded item true]> (load rows)) = delete i rows.
Proof.
  revert i. induction rows as [|row rows IH]; intros i Hi; [simpl in Hi; lia|].
  change (load (row :: rows)) with (mkLoaded row false :: load rows).
  destruct i as [|i]; cbn [list_insert insert]; rewrite flush_cons; simpl.
  - by rewrite flush_not_deleted, load_obj by apply load_not_deleted.
  - f_equal. apply IH. simpl in Hi. lia.
Qed.

(** X16: The stock check of the first loop does not see the second loop: when
    one line takes all the units of a listing and another line of the batch
    resolves to the same listing and asks for fewer units than were listed,
    the buy succeeds, both lines are sold and charged, and the listing is
    deleted.  The numbers the commit writes, which are the two quantities,
    the price, the proceeds of each line and the total cost, are taken to fit
    64 bits; the quantity assigned to the deleted object is not written. *)
Theorem handle_buy_sells_consumed_listing db r1 r2 silver user now i item :
  list_find (is_match r1) (for_sale_items db) = Some (i, item) →
  list_find (is_match r2) (for_sale_items db) = Some (i, item) →
  BuyItemRequest.quantity r1 = ForSaleItem.quantity item →
  BuyItemRequest.quantity r2 < ForSaleItem.quantity item →
  ForSaleItem.price item * (BuyItemRequest.quantity r1 + BuyItemRequest.quantity r2)
  ≤ silver →
  Forall int64
    [BuyItemRequest.quantity r1; BuyItemRequest.quantity r2;
     ForSaleItem.price item;
     ForSaleItem.price item * BuyItemRequest.quantity r1;
     ForSaleItem.price item * BuyItemRequest.quantity r2;
     ForSaleItem.price item
     * (BuyItemRequest.quantity r1 + BuyItemRequest.quantity r2)] →
  ∃ resp db',
    handle_buy db (BuyRequest.mk [r1; r2] silver) user now = (Returned resp, db')
    ∧ for_sale_items db' = delete i (for_sale_items db)
    ∧ ItemDetails.Quantity <$> BuyResponse.purchased_items resp
      = [BuyItemRequest.quantity r1; BuyItemRequest.quantity r2]
    ∧ BuyResponse.total_cost resp
      = ForSaleItem.price item
        * (BuyItemRequest.quantity r1 + BuyItemRequest.quantity r2).
Proof.
  intros Hfind1 Hfind2 Hq1 Hq2 Hsilver _.
  pose proof (list_find_resolve _ _ _ _ Hfind1) as Hres1.
  pose proof (list_find_resolve _ _ _ _ Hfind2) as Hres2.
  assert (Forall (line_ok (for_sale_items db)) [r1; r2]) as Hok.
  { apply Forall_cons_2; [|apply Forall_singleton]; exists item;
      (split; [done|lia]). }
  assert (i < length (for_sale_items db))%nat as Hi.
  { apply list_find_Some in Hfind1 as [Hrow _]. by eapply lookup_lt_Some. }
  (* the first line marks the object deleted *)
  set (st0 := BuyState.mk (load (for_sale_items db)) [] [] 0).
  set (st1 := process_purchase (Payload.player_name user) now st0 r1).
  assert (BuyState.loaded st1
          = <[i := mkLoaded item true]> (load (for_sale_items db))) as Hloaded1.
  { unfold st1. rewrite process_purchase_loaded. unfold st0. simpl.
    rewrite first_match_load, Hfind1. simpl. by rewrite decide_True. }
  (* the second line finds the same object again *)
  assert (tracks (for_sale_items db) (BuyState.loaded st1)) as Ht1.
  { apply process_purchase_tracks, tracks_load. }
  assert (first_match (BuyState.loaded st1) r2 = Some (i, mkLoaded item true))
    as Hagain.
  { pose proof (first_match_tracks _ _ r2 Ht1) as Hsame.
    destruct (first_match (BuyState.loaded st1) r2) as [[i' o']|] eqn:Hfm.
    - destruct Hsame as (item' & Hfind & _).
      rewrite Hfind2 in Hfind. injection Hfind as <- <-.
      apply first_match_Some in Hfm as [Ho' _].
      rewrite Hloaded1, list_lookup_insert_eq in Ho'
        by (unfold load; by rewrite length_fmap).
      by injection Ho' as <-.
    - congruence. }
  set (st2 := process_purchase (Payload.player_name user) now st1 r2).
  assert (BuyState.loaded st2
          = <[i := mkLoaded (ForSaleItem.sub_quantity item
                               (BuyItemRequest.quantity r2)) true]>
              (load (for_sale_items db))) as Hloaded2.
  { unfold st2. rewrite process_purchase_loaded, Hagain. simpl.
    rewrite decide_False by lia. by rewrite Hloaded1, list_insert_insert_eq. }
  destruct (process_purchases_totals (for_sale_items db)
              (Payload.player_name user) now [r1; r2] st0 (tracks_load _) Hok)
    as [Htotal Hitems].
  cbv zeta in Htotal, Hitems. unfold process_purchases in Htotal, Hitems.
  cbn [foldl required_cost] in Htotal, Hitems.
  rewrite Hres1, Hres2 in Htotal. fold st1 st2 in Htotal, Hitems.
  eexists _, _. split.
  { unfold handle_buy. cbn [BuyRequest.items BuyRequest.client_silver].
    rewrite validate_purchases_all_ok by done.
    cbn [required_cost]. rewrite Hres1, Hres2.
    rewrite decide_False by lia. unfold process_purchases. cbn [foldl].
    fold st0. fold st1. fold st2. reflexivity. }
  cbn [for_sale_items BuyResponse.purchased_items BuyResponse.total_cost].
  split_and!.
  - by rewrite Hloaded2, flush_insert_deleted.
  - rewrite Hitems. done.
  - rewrite Htotal. unfold st0. simpl. lia.
Qed.

Lemma handle_buy_sells_consumed_listing_witness :
  ∃ resp db',
    handle_buy (Sample.market 3 "steam_sam")
      (BuyRequest.mk [Sample.line 3; Sample.line 2] 100) Sample.alice 7
    = (Returned resp, db')
    ∧ for_sale_items db' = []
    ∧ BuyResponse.total_cost resp = 50.
Proof.
  destruct (handle_buy_sells_consumed_listing (Sample.market 3 "steam_sam")
              (Sample.line 3) (Sample.line 2) 100 Sample.alice 7 0%nat
              (Sample.knife 3 "steam_sam") eq_refl eq_refl eq_refl)
    as (resp & db' & Hbuy & Hrows & _ & Htotal);
    [vm_compute; reflexivity|vm_compute; discriminate| |].
  { repeat (apply Forall_cons_2; [unfold int64; simpl; lia|]). apply Forall_nil_2. }
  exists resp, db'. split_and!; [exact Hbuy|exact Hrows|exact Htotal].
Defined.

Lemma handle_buy_distinct_lines_positive_witness :
  ∃ resp db',
    handle_buy SampleListings.db
      (BuyRequest.mk [BuyItemRequest.mk "ironKnife" 1 "sam"] 100) Sample.alice 7
    = (Returned resp, db')
    ∧ quantities_positive (for_sale_items db').
Proof.
  eexists _, _. split; [reflexivity|].
  eapply (handle_buy_distinct_lines_positive SampleListings.db
            (BuyRequest.mk [BuyItemRequest.mk "ironKnife" 1 "sam"] 100)
            Sample.alice 7).
  - unfold quantities_positive, SampleListings.db. simpl.
    apply Forall_cons_2; [|apply Forall_cons_2; [|apply Forall_singleton]];
      vm_compute; discriminate.
  - vm_compute. apply NoDup_singleton.
  - reflexivity.
Defined.
